(** * WearAHat (src/app.ts): the hat catalog, the hat menu and the
      per-user attachment map, as a shallow embedding.

    The TypeScript class [WearAHat] keeps three ambient dictionaries and
    reacts to three host events (session started, user left, click on a
    menu button).  The embedding keeps the shape of the class: one record
    for the instance together with the part of the host scene it talks
    to, one monadic definition per method, statements in source order.
    The dictionaries are plain objects, so a read also finds the names
    inherited from [Object.prototype] and an assignment to ["__proto__"]
    goes to its setter; both are part of the embedding. *)

From Stdlib Require Import Ascii String QArith Lqa.
From stdpp Require Import gmap strings list fin_maps sorting.

Local Open Scope string_scope.
Local Open Scope list_scope.

(** ** JavaScript objects used as string-keyed dictionaries

    [HatDatabase] is enumerated with [Object.keys], so the order of its
    properties is observable (it fixes the left-to-right order of the
    menu).  An object is therefore an association list in property
    creation order, with at most one binding per key.  [get] and [set]
    work on the own properties; what a read or an assignment does with
    the names inherited from [Object.prototype] is written out where
    the program reads or assigns: [inherited], [put], [assign_proto]. *)

Module Js.

Definition Obj (V : Type) : Type := list (string * V).

Fixpoint get {V} (k : string) (o : Obj V) : option V :=
  match o with
  | [] => None
  | (k', v) :: o' => if String.eqb k k' then Some v else get k o'
  end.

(** The own property [k] set to [v]: an existing property keeps its
    place, a new one is added last. *)
Fixpoint set {V} (k : string) (v : V) (o : Obj V) : Obj V :=
  match o with
  | [] => [(k, v)]
  | (k', v') :: o' =>
      if String.eqb k k' then (k', v) :: o' else (k', v') :: set k v o'
  end.

Definition own_keys {V} (o : Obj V) : list string := map fst o.

Definition wf {V} (o : Obj V) : Prop := NoDup (own_keys o).

(** The names every object inherits from [Object.prototype]: eleven
    functions and the accessor [__proto__], which reads and replaces
    the prototype.  A read of one of them on an object without such an
    own property yields a function (the prototype itself for
    [__proto__]), never [undefined]. *)
Definition object_prototype_names : list string :=
  ["constructor"; "__defineGetter__"; "__defineSetter__"; "hasOwnProperty";
   "__lookupGetter__"; "__lookupSetter__"; "isPrototypeOf";
   "propertyIsEnumerable"; "toString"; "valueOf"; "__proto__";
   "toLocaleString"].

Definition inherited (k : string) : bool :=
  bool_decide (k ∈ object_prototype_names).

(** [o[k] = v] on an ordinary object: an own property is updated, a new
    name becomes an own property, and ["__proto__"] without an own
    property of that name goes to the inherited setter, which adds no
    own property (it replaces the prototype when [v] is an object). *)
Definition put {V} (k : string) (v : V) (o : Obj V) : Obj V :=
  match get k o with
  | Some _ => set k v o
  | None => if String.eqb k "__proto__" then o else set k v o
  end.

(** Array indices: canonical decimal strings below 2^32 - 1.  The
    property enumeration order lists them first, in ascending numeric
    order, and the remaining string keys after them in creation order. *)
Definition digit_of (c : ascii) : option N :=
  let n := N_of_ascii c in
  if ((48 <=? n) && (n <=? 57))%N then Some (n - 48)%N else None.

Fixpoint decimal_value (s : string) (acc : N) : option N :=
  match s with
  | EmptyString => Some acc
  | String c r =>
      match digit_of c with
      | Some d => decimal_value r (10 * acc + d)%N
      | None => None
      end
  end.

Definition array_index (P : string) : option N :=
  match P with
  | EmptyString => None
  | String c r =>
      if bool_decide (c = "0"%char) && negb (bool_decide (r = EmptyString))
      then None
      else match decimal_value P 0 with
           | Some n => if (n <? 4294967295)%N then Some n else None
           | None => None
           end
  end.

Definition index_le (a b : N * string) : Prop := (a.1 ≤ b.1)%N.

Global Instance index_le_dec : RelDecision index_le.
Proof. intros a b. unfold index_le. apply _. Defined.

Definition indexed (ks : list string) : list (N * string) :=
  omap (λ k, match array_index k with Some n => Some (n, k) | None => None end) ks.

Definition named (ks : list string) : list string :=
  filter (λ k, array_index k = None) ks.

(** [Object.keys(o)] *)
Definition keys {V} (o : Obj V) : list string :=
  map snd (merge_sort index_le (indexed (own_keys o))) ++ named (own_keys o).

(** [Object.assign(target, ...sources)]: every source in turn, every own
    property of the source in enumeration order, assigned onto the
    target with [target[k] = v]; a later source overwrites an earlier
    one.  These are the own properties of the result. *)
Definition assign_from {V} (src : Obj V) (target : Obj V) : Obj V :=
  fold_left
    (λ t k, match get k src with Some v => put k v t | None => t end)
    (keys src) target.

Definition assign {V} (target : Obj V) (sources : list (Obj V)) : Obj V :=
  fold_left (λ t src, assign_from src t) sources target.

(** The prototype [Object.assign({}, ...sources)] leaves on its result
    when the values are objects: the value of the last source key
    ["__proto__"], if a source has one ([None]: [Object.prototype]). *)
Definition assign_proto {V} (sources : list (Obj V)) : option V :=
  fold_left
    (λ p src, match get "__proto__" src with Some v => Some v | None => p end)
    sources None.

End Js.

(** ** The hat database *)

(** A JSON number.  The numbers of the program are either copied from
    the database or multiples of 1.5 built by [x += 1.5], which doubles
    represent exactly at any realistic menu length; rationals model both
    without rounding. *)
Record Vector3 : Type := { x_ : Q; y_ : Q; z_ : Q }.

(** [HatDescriptor].  The type declares four fields; the JSON files may
    leave any of them out, which the code tests for. *)
Record HatDescriptor : Type := {
  resourceId : option string;
  scale : option Vector3;
  rotation : option Vector3;
  position : option Vector3;
}.

(** The JSON files under [public/], which [require] parses; they are
    data of the deployment, not of the program. *)
Record PublicData (V : Type) : Type := {
  city_helmets_json : Js.Obj V;
  space_helmets_json : Js.Obj V;
  all_json : Js.Obj V;
  defaults_json : Js.Obj V;
}.
Arguments city_helmets_json {V} _.
Arguments space_helmets_json {V} _.
Arguments all_json {V} _.
Arguments defaults_json {V} _.

(** The kit-specific file the [switch] on [params.kit] selects; the
    cases are compared in source order. *)
Definition kit_json {V} (kit : option string) (files : PublicData V) : Js.Obj V :=
  match kit with
  | Some k =>
      if String.eqb k "city_helmets" then city_helmets_json files
      else if String.eqb k "space_helmets" then space_helmets_json files
      else all_json files
  | None => all_json files
  end.

(** The [switch] of the [onStarted] callback: in each case
    [Object.assign({}, <kit file>, defaults)]. *)
Definition loadHatDatabase {V} (kit : option string) (files : PublicData V) : Js.Obj V :=
  match kit with
  | Some k =>
      if String.eqb k "city_helmets" then
        Js.assign [] [city_helmets_json files; defaults_json files]
      else if String.eqb k "space_helmets" then
        Js.assign [] [space_helmets_json files; defaults_json files]
      else
        Js.assign [] [all_json files; defaults_json files]
  | None => Js.assign [] [all_json files; defaults_json files]
  end.

(** The prototype of that object: a descriptor, when one of the two
    files has the key ["__proto__"]. *)
Definition loadHatDatabase_proto (kit : option string)
    (files : PublicData HatDescriptor) : option HatDescriptor :=
  Js.assign_proto [kit_json kit files; defaults_json files].

(** ** The host scene, as far as the class drives it *)

Definition ActorId : Type := nat.

Record Transform : Type := {
  t_position : option Vector3;
  (** Euler angles in degrees, as the code holds them before
      [Quaternion.FromEulerAngles] and [DegreesToRadians], which belong
      to the SDK. *)
  t_rotation : option Vector3;
  t_scale : option Vector3;
}.

Record Attachment : Type := { attachPoint : string; userId : string }.

(** The [actor: { ... }] payload of the creation calls. *)
Record ActorLike : Type := {
  parentId : option ActorId;
  name : option string;
  transform : Transform;
  attachment : option Attachment;
}.

Inductive ActorSource : Type :=
| CreateEmpty
| CreateFromLibrary (resource : option string)
| CreatePrimitiveBox (dimensions : Vector3) (addCollider : bool).

(** A live actor.  [onClick_released] is the handler installed by
    [setBehavior(ButtonBehavior).onClick('released', ...)]; the only
    closure the class installs is [userId => this.wearHat(hatId, userId)],
    kept here as the [hatId] it captures. *)
Record Actor : Type := {
  id : ActorId;
  source : ActorSource;
  actor : ActorLike;
  onClick_released : option string;
}.

(** The instance of [WearAHat] with the scene it has built.  ([prefabs]
    is declared by the class and never read or written.)
    [HatDatabase] holds the own properties of the object and
    [HatDatabase_proto] the descriptor that [Object.assign] installed as
    its prototype, if any.  [attachedHats] holds the own properties of
    an object whose prototype is [Object.prototype]. *)
Record World : Type := {
  params_kit : option string;
  HatDatabase : Js.Obj HatDescriptor;
  HatDatabase_proto : option HatDescriptor;
  attachedHats : gmap string ActorId;
  actors : list Actor;
  next_id : ActorId;
  destroyed : list ActorId;
}.

Definition set_HatDatabase (db : Js.Obj HatDescriptor) (w : World) : World :=
  {| params_kit := params_kit w; HatDatabase := db;
     HatDatabase_proto := HatDatabase_proto w;
     attachedHats := attachedHats w; actors := actors w;
     next_id := next_id w; destroyed := destroyed w |}.

Definition set_HatDatabase_proto (d : option HatDescriptor) (w : World) : World :=
  {| params_kit := params_kit w; HatDatabase := HatDatabase w;
     HatDatabase_proto := d;
     attachedHats := attachedHats w; actors := actors w;
     next_id := next_id w; destroyed := destroyed w |}.

Definition set_attachedHats (m : gmap string ActorId) (w : World) : World :=
  {| params_kit := params_kit w; HatDatabase := HatDatabase w;
     HatDatabase_proto := HatDatabase_proto w;
     attachedHats := m; actors := actors w;
     next_id := next_id w; destroyed := destroyed w |}.

Definition set_actors (l : list Actor) (w : World) : World :=
  {| params_kit := params_kit w; HatDatabase := HatDatabase w;
     HatDatabase_proto := HatDatabase_proto w;
     attachedHats := attachedHats w; actors := l;
     next_id := next_id w; destroyed := destroyed w |}.

(** ** Statements: state, early [return], exceptions *)

Inductive Completion (A : Type) : Type :=
| Normal (a : A)
| Returned
| Thrown (e : string)
(** the statement leaves the states [World] describes *)
| OutOfModel (why : string).
Arguments Normal {A} a.
Arguments Returned {A}.
Arguments Thrown {A} e.
Arguments OutOfModel {A} why.

Definition M (A : Type) : Type := World → Completion A * World.

Global Instance M_ret : MRet M := λ A a w, (Normal a, w).

Global Instance M_bind : MBind M := λ A B k m w,
  match m w with
  | (Normal a, w') => k a w'
  | (Returned, w') => (Returned, w')
  | (Thrown e, w') => (Thrown e, w')
  | (OutOfModel why, w') => (OutOfModel why, w')
  end.

Definition gets {A} (f : World → A) : M A := λ w, (Normal (f w), w).
Definition modify (f : World → World) : M unit := λ w, (Normal tt, f w).
(** [return;] *)
Definition return_ : M unit := λ w, (Returned, w).
Definition throw {A} (e : string) : M A := λ w, (Thrown e, w).
Definition out_of_model {A} (why : string) : M A := λ w, (OutOfModel why, w).

(** The body of a function: a [return] inside it ends the call. *)
Definition function_body (m : M unit) : M unit := λ w,
  match m w with
  | (Returned, w') => (Normal tt, w')
  | r => r
  end.

(** The body of an [async] function called without [await]: the caller
    gets a promise, also when the body throws. *)
Definition async_function_body (m : M unit) : M unit := λ w,
  (Normal tt, (m w).2).

(** *** SDK calls *)

Definition create (src : ActorSource) (a : ActorLike) : M Actor := λ w,
  let new := {| id := next_id w; source := src; actor := a;
                onClick_released := None |} in
  (Normal new,
   {| params_kit := params_kit w; HatDatabase := HatDatabase w;
      HatDatabase_proto := HatDatabase_proto w;
      attachedHats := attachedHats w; actors := actors w ++ [new];
      next_id := S (next_id w); destroyed := destroyed w |}).

(** [actor.destroy()] *)
Definition destroy (a : ActorId) : M unit := modify (λ w,
  {| params_kit := params_kit w; HatDatabase := HatDatabase w;
     HatDatabase_proto := HatDatabase_proto w;
     attachedHats := attachedHats w;
     actors := filter (λ b, id b ≠ a) (actors w);
     next_id := next_id w; destroyed := destroyed w ++ [a] |}).

Definition install_handler (a : ActorId) (hatId : string) (b : Actor) : Actor :=
  if decide (id b = a)
  then {| id := id b; source := source b; actor := actor b;
          onClick_released := Some hatId |}
  else b.

(** [button.value.setBehavior(ButtonBehavior).onClick('released', h)] *)
Definition setBehavior_onClick (a : ActorId) (hatId : string) : M unit :=
  modify (λ w, set_actors (map (install_handler a hatId) (actors w)) w).

(** ** The methods of [WearAHat] *)

(** A string in a condition: [undefined] and the empty string are falsy. *)
Definition truthy_string (s : option string) : bool :=
  match s with
  | Some EmptyString | None => false
  | Some _ => true
  end.

(** [/!$/.test(s)]: no flags, so [$] is the end of the input. *)
Fixpoint regex_test_bang_end (s : string) : bool :=
  match s with
  | EmptyString => false
  | String c EmptyString => bool_decide (c = "!"%char)
  | String _ r => regex_test_bang_end r
  end.

Definition vec (x y z : Q) : Vector3 := {| x_ := x; y_ := y; z_ := z |}.

(** Lines 111-112, the two constants of a resource-backed menu entry:
    [(regex.test(hatId) && hatRecord.rotation) ? hatRecord.rotation : {0,0,0}]
    and the same for the scale with [{3,3,3}]. *)
Definition menu_rotation (hatId : string) (hatRecord : HatDescriptor) : Vector3 :=
  match regex_test_bang_end hatId, rotation hatRecord with
  | true, Some r => r
  | _, _ => vec 0 0 0
  end.

Definition menu_scale (hatId : string) (hatRecord : HatDescriptor) : Vector3 :=
  match regex_test_bang_end hatId, scale hatRecord with
  | true, Some s => s
  | _, _ => vec 3 3 3
  end.

(** Lines 192-194, the three constants of the attached hat:
    [hatRecord.position ? hatRecord.position : { x: 0, y: 0, z: 0 }]
    and so on. *)
Definition attach_position (hatRecord : HatDescriptor) : Vector3 :=
  match position hatRecord with Some p => p | None => vec 0 0 0 end.

Definition attach_scale (hatRecord : HatDescriptor) : Vector3 :=
  match scale hatRecord with Some s => s | None => vec (3#2) (3#2) (3#2) end.

Definition attach_rotation (hatRecord : HatDescriptor) : Vector3 :=
  match rotation hatRecord with Some r => r | None => vec 0 180 0 end.

(** What [this.attachedHats[u]] yields: the actor recorded for [u]; for
    a name inherited from [Object.prototype] and not recorded, a
    function or the prototype object, truthy and without a [destroy]
    method; [undefined] otherwise. *)
Inductive AttachedRead : Type :=
| Worn (a : ActorId)
| NotAnActor
| Unworn.

Definition read_attachedHats (u : string) (w : World) : AttachedRead :=
  match attachedHats w !! u with
  | Some a => Worn a
  | None => if Js.inherited u then NotAnActor else Unworn
  end.

Definition not_a_function : string :=
  "TypeError: this.attachedHats[...].destroy is not a function".

(** [if (this.attachedHats[u]) this.attachedHats[u].destroy();] *)
Definition destroy_if_attached (u : string) : M unit :=
  worn ← gets (read_attachedHats u);
  match worn with
  | Worn a => destroy a
  | NotAnActor => throw not_a_function
  | Unworn => mret tt
  end.

(** [delete this.attachedHats[u];] *)
Definition delete_attachedHats (u : string) : M unit :=
  modify (λ w, set_attachedHats (delete u (attachedHats w)) w).

(** [userLeft(user)], lines 86-91, on [user.id]. *)
Definition userLeft (user_id : string) : M unit :=
  function_body (
    destroy_if_attached user_id ;;
    delete_attachedHats user_id).

(** A value without any of the four descriptor fields, as the reads
    [.position], [.scale], [.rotation] and [.resourceId] see it: a
    string, a vector, a function, [Object.prototype]. *)
Definition no_fields : HatDescriptor :=
  {| resourceId := None; scale := None; rotation := None; position := None |}.

(** The own field [k] of a descriptor, if it has one. *)
Definition has_field (d : HatDescriptor) (k : string) : bool :=
  (String.eqb k "resourceId" && bool_decide (is_Some (resourceId d)))
  || (String.eqb k "scale" && bool_decide (is_Some (scale d)))
  || (String.eqb k "rotation" && bool_decide (is_Some (rotation d)))
  || (String.eqb k "position" && bool_decide (is_Some (position d))).

(** What [this.HatDatabase[hatId]] yields, as far as the four field
    reads that follow can tell ([None]: [undefined]): the own record;
    else, along the prototype chain, the prototype descriptor itself
    for ["__proto__"], one of its field values, or a member of
    [Object.prototype]. *)
Definition read_HatDatabase (hatId : string) (w : World) : option HatDescriptor :=
  match Js.get hatId (HatDatabase w) with
  | Some r => Some r
  | None =>
      match HatDatabase_proto w with
      | Some d =>
          if String.eqb hatId "__proto__" then Some d
          else if has_field d hatId then Some no_fields
          else if Js.inherited hatId then Some no_fields
          else None
      | None => if Js.inherited hatId then Some no_fields else None
      end
  end.

(** [this.attachedHats[u] = hat], line 196.  For ["__proto__"] without
    an own property of that name the assignment goes to the inherited
    setter and makes the actor the prototype of [attachedHats]; every
    later read would then go through the SDK's [Actor] object, which
    [World] does not describe.  (Line 185 has thrown before, unless the
    state had an own property ["__proto__"], which no statement of the
    class creates.) *)
Definition assign_attachedHats (u : string) (a : ActorId) : M unit :=
  own ← gets (λ w, attachedHats w !! u);
  match own with
  | None =>
      if String.eqb u "__proto__"
      then out_of_model "attachedHats.__proto__ = actor"
      else modify (λ w, set_attachedHats (<[u := a]> (attachedHats w)) w)
  | Some _ => modify (λ w, set_attachedHats (<[u := a]> (attachedHats w)) w)
  end.

(** Lines 184-212: the statements that follow [return;] inside the
    braces of [if (hatId == "clear!") {], up to the brace that closes
    them on line 232. *)
Definition wearHat_after_return (hatId user_id : string) : M unit :=
  destroy_if_attached user_id ;;
  delete_attachedHats user_id ;;
  hatRecord ← gets (read_HatDatabase hatId);
  match hatRecord with
  | None => throw "TypeError: Cannot read property 'position' of undefined"
  | Some hatRecord =>
      let position := attach_position hatRecord in
      let scale := attach_scale hatRecord in
      let rotation := attach_rotation hatRecord in
      hat ← create (CreateFromLibrary (resourceId hatRecord))
               {| parentId := None; name := None;
                  transform := {| t_position := Some position;
                                  t_rotation := Some rotation;
                                  t_scale := Some scale |};
                  attachment := Some {| attachPoint := "head";
                                        userId := user_id |} |};
      assign_attachedHats user_id (id hat)
  end.

(** [wearHat(hatId, userId)], lines 176-233.  The [if] opened on line
    178 is closed by the brace on line 232, so its block holds the whole
    rest of the function and the function has no [else] part. *)
Definition wearHat (hatId user_id : string) : M unit :=
  function_body (
    if String.eqb hatId "clear!" then
      destroy_if_attached user_id ;;
      delete_attachedHats user_id ;;
      return_ ;;
      wearHat_after_return hatId user_id
    else mret tt).

(** Lines 108-160: the button of one entry, a library artifact when the
    record has a resource and a labelled box otherwise. *)
Definition create_button (hatId : string) (hatRecord : HatDescriptor)
    (menu : Actor) (x : Q) : M Actor :=
  if truthy_string (resourceId hatRecord) then
    let rotation := menu_rotation hatId hatRecord in
    let scale := menu_scale hatId hatRecord in
    create (CreateFromLibrary (resourceId hatRecord))
      {| parentId := None; name := None;
         transform := {| t_position := Some (vec x 1 0);
                         t_rotation := Some rotation;
                         t_scale := Some scale |};
         attachment := None |}
  else
    create (CreatePrimitiveBox (vec (3#10) (3#10) (3#10)) true)
      {| parentId := Some (id menu); name := Some hatId;
         transform := {| t_position := Some (vec x 0 0);
                         t_rotation := None;
                         t_scale := None |};
         attachment := None |}.

(** One turn of the [for ... of Object.keys(this.HatDatabase)] loop of
    [showHatMenu], lines 103-167, followed by the remaining turns. *)
Fixpoint showHatMenu_loop (hatIds : list string) (menu : Actor) (x : Q) : M unit :=
  match hatIds with
  | [] => mret tt
  | hatId :: rest =>
      hatRecord ← gets (read_HatDatabase hatId);
      match hatRecord with
      | None => throw "TypeError: Cannot read property 'resourceId' of undefined"
      | Some hatRecord =>
          button ← create_button hatId hatRecord menu x;
          setBehavior_onClick (id button) hatId ;;
          showHatMenu_loop rest menu (x + (3#2))
      end
  end.

Definition no_transform : Transform :=
  {| t_position := None; t_rotation := None; t_scale := None |}.

(** [showHatMenu()], lines 96-169. *)
Definition showHatMenu : M unit :=
  function_body (
    menu ← create CreateEmpty
             {| parentId := None; name := None; transform := no_transform;
                attachment := None |};
    hatIds ← gets (λ w, Js.keys (HatDatabase w));
    showHatMenu_loop hatIds menu 0).

(** [started()], lines 77-80. *)
Definition started : M unit := async_function_body showHatMenu.

(** The callback given to [context.onStarted], lines 50-70. *)
Definition onStarted (files : PublicData HatDescriptor) : M unit :=
  function_body (
    kit ← gets params_kit;
    modify (λ w, set_HatDatabase_proto (loadHatDatabase_proto kit files)
                   (set_HatDatabase (loadHatDatabase kit files) w)) ;;
    started).

(** [new WearAHat(context, params, baseUrl)]: the field initialisers. *)
Definition new_WearAHat (kit : option string) : World :=
  {| params_kit := kit; HatDatabase := []; HatDatabase_proto := None;
     attachedHats := ∅; actors := []; next_id := 0; destroyed := [] |}.

(** ** Host events *)

(** A click released on a button runs the handler installed on it. *)
Definition click (button : ActorId) (user_id : string) : M unit :=
  target ← gets (λ w, list_find (λ b, id b = button) (actors w));
  match target with
  | Some (_, b) =>
      match onClick_released b with
      | Some hatId => wearHat hatId user_id
      | None => mret tt
      end
  | None => mret tt
  end.

Inductive Event : Type :=
| SessionStarted (files : PublicData HatDescriptor)
| UserLeft (user_id : string)
| Click (button : ActorId) (user_id : string)
(** the handler called with an id of the caller's choice *)
| Select (hatId user_id : string).

Definition handle (e : Event) : M unit :=
  match e with
  | SessionStarted files => onStarted files
  | UserLeft u => userLeft u
  | Click b u => click b u
  | Select h u => wearHat h u
  end.

(** The host delivers events one at a time; what a handler leaves
    behind is the state the next one starts from. *)
Definition run (es : list Event) (w : World) : World :=
  fold_left (λ w e, (handle e w).2) es w.

(** Every state the instance goes through, the first one included. *)
Fixpoint trace (es : list Event) (w : World) : list World :=
  match es with
  | [] => [w]
  | e :: es' => w :: trace es' (handle e w).2
  end.

(** ** Views of the state used in the statements *)

(** The menu entries: the actors that carry a click handler, in creation
    order. *)
Definition menu_entries (w : World) : list Actor :=
  filter (λ a, is_Some (onClick_released a)) (actors w).

(** The live actors attached to user [u]. *)
Definition attached_to (u : string) (a : Actor) : Prop :=
  userId <$> attachment (actor a) = Some u.

Global Instance attached_to_dec u a : Decision (attached_to u a).
Proof. unfold attached_to. apply _. Defined.

Definition attachments_of (u : string) (w : World) : list Actor :=
  filter (attached_to u) (actors w).

(** The menu of a new instance whose database is [db]. *)
Definition menu_of (db : Js.Obj HatDescriptor) (kit : option string) :
    Completion unit * World :=
  showHatMenu (set_HatDatabase db (new_WearAHat kit)).

(** The fields of the instance itself, apart from the scene. *)
Definition same_fields (w w' : World) : Prop :=
  params_kit w' = params_kit w ∧ HatDatabase w' = HatDatabase w ∧
  attachedHats w' = attachedHats w ∧ destroyed w' = destroyed w.

Definition same_proto (w w' : World) : Prop :=
  HatDatabase_proto w' = HatDatabase_proto w.

(** The actor one turn of the menu loop leaves in the scene for
    [hatId], made at coordinate [x] under the id [n]. *)
Inductive is_button (db : Js.Obj HatDescriptor) (menu : ActorId)
    (hatId : string) (x : Q) (n : ActorId) : Actor → Prop :=
| resource_button r :
    Js.get hatId db = Some r →
    truthy_string (resourceId r) = true →
    is_button db menu hatId x n
      {| id := n; source := CreateFromLibrary (resourceId r);
         actor := {| parentId := None; name := None;
                     transform := {| t_position := Some (vec x 1 0);
                                     t_rotation := Some (menu_rotation hatId r);
                                     t_scale := Some (menu_scale hatId r) |};
                     attachment := None |};
         onClick_released := Some hatId |}
| box_button r :
    Js.get hatId db = Some r →
    truthy_string (resourceId r) = false →
    is_button db menu hatId x n
      {| id := n; source := CreatePrimitiveBox (vec (3#10) (3#10) (3#10)) true;
         actor := {| parentId := Some menu; name := Some hatId;
                     transform := {| t_position := Some (vec x 0 0);
                                     t_rotation := None;
                                     t_scale := None |};
                     attachment := None |};
         onClick_released := Some hatId |}.

(** The actors a run of the loop over [hatIds] appends. *)
Fixpoint are_buttons (db : Js.Obj HatDescriptor) (menu : ActorId)
    (hatIds : list string) (x : Q) (n : ActorId) (new : list Actor) : Prop :=
  match hatIds, new with
  | [], [] => True
  | hatId :: rest, e :: new' =>
      is_button db menu hatId x n e ∧
      are_buttons db menu rest (x + (3#2)) (S n) new'
  | _, _ => False
  end.

Definition fresh_ids (w : World) : Prop :=
  Forall (λ a, id a < next_id w) (actors w).

(** At most one live actor is attached to any one user. *)
Definition at_most_one (w : World) : Prop :=
  ∀ u, (length (attachments_of u w) ≤ 1)%nat.

(** The spec's [clear(userId)], from its words: if an Attachment exists
    for [userId], destroy its host-scene object and remove the mapping
    entry; clearing a user with no Attachment is a no-op. *)
Definition clear_spec (u : string) (w : World) : World :=
  match attachedHats w !! u with
  | Some a =>
      {| params_kit := params_kit w; HatDatabase := HatDatabase w;
         HatDatabase_proto := HatDatabase_proto w;
         attachedHats := delete u (attachedHats w);
         actors := filter (λ b, id b ≠ a) (actors w);
         next_id := next_id w; destroyed := destroyed w ++ [a] |}
  | None => w
  end.

(** How the two clearing paths complete: the read of lines 89 and 180
    throws when [u] has no record and names a member of
    [Object.prototype]. *)
Definition clear_outcome (u : string) (w : World) : Completion unit :=
  match read_attachedHats u w with
  | NotAnActor => Thrown not_a_function
  | _ => Normal tt
  end.

(** The user id an event carries. *)
Definition event_user (e : Event) : option string :=
  match e with
  | SessionStarted _ => None
  | UserLeft u | Click _ u | Select _ u => Some u
  end.

(** ** Sample data *)

Module Sample.

(** The spec's merge example: defaults [{a:1, b:2}], kit data
    [{b:3, c:4}]. *)
Definition merge_files : PublicData nat :=
  {| city_helmets_json := [("b", 3); ("c", 4)];
     space_helmets_json := [("b", 3); ("c", 4)];
     all_json := [("b", 3); ("c", 4)];
     defaults_json := [("a", 1); ("b", 2)] |}.

Definition expected_by_spec : Js.Obj nat := [("a", 1); ("b", 3); ("c", 4)].

(** A hat with no transform of its own, a labelled box, and a clear
    command that has a full transform. *)
Definition pilot : HatDescriptor :=
  {| resourceId := Some "artifact:1166"; scale := None; rotation := None;
     position := None |}.

Definition crown : HatDescriptor :=
  {| resourceId := Some "artifact:1167"; scale := Some (vec 2 2 2);
     rotation := Some (vec 0 90 0); position := Some (vec 0 (1#10) 0) |}.

Definition marker : HatDescriptor :=
  {| resourceId := None; scale := None; rotation := None; position := None |}.

Definition clear_command : HatDescriptor :=
  {| resourceId := Some "artifact:1168"; scale := Some (vec 1 1 1);
     rotation := Some (vec 0 45 0); position := Some (vec 5 5 5) |}.

Definition files : PublicData HatDescriptor :=
  {| city_helmets_json := [("pilot", pilot); ("crown", crown); ("marker", marker)];
     space_helmets_json := [];
     all_json := [];
     defaults_json := [("clear!", clear_command)] |}.

(** The session after [onStarted] with [?kit=city_helmets]. *)
Definition session : World :=
  (onStarted files (new_WearAHat (Some "city_helmets"))).2.

(** The catalog as a literal. *)
Definition catalog : Js.Obj HatDescriptor :=
  [("pilot", pilot); ("crown", crown); ("marker", marker);
   ("clear!", clear_command)].

(** The button of "pilot", the first menu entry. *)
Definition pilot_button : Actor :=
  {| id := 1; source := CreateFromLibrary (Some "artifact:1166");
     actor := {| parentId := None; name := None;
                 transform := {| t_position := Some (vec 0 1 0);
                                 t_rotation := Some (vec 0 0 0);
                                 t_scale := Some (vec 3 3 3) |};
                 attachment := None |};
     onClick_released := Some "pilot" |}.

(** A state in which user [u1] wears the pilot hat: what the statements
    of lines 184-212 leave when they are run on [session]. *)
Definition wearing : World :=
  (wearHat_after_return "pilot" "u1" session).2.

(** The button of "marker", the third menu entry: a box. *)
Definition marker_button : Actor :=
  {| id := 3; source := CreatePrimitiveBox (vec (3#10) (3#10) (3#10)) true;
     actor := {| parentId := Some 0; name := Some "marker";
                 transform := {| t_position := Some (vec (12#4) 0 0);
                                 t_rotation := None; t_scale := None |};
                 attachment := None |};
     onClick_released := Some "marker" |}.

End Sample.

(** ** Further views of the state *)

(** Nobody is recorded as wearing a hat, nothing was destroyed and no
    live actor is attached to anyone. *)
Definition never_worn (w : World) : Prop :=
  attachedHats w = ∅ ∧ destroyed w = [] ∧
  Forall (λ a, attachment (actor a) = None) (actors w).

Definition is_SessionStarted (e : Event) : bool :=
  match e with SessionStarted _ => true | _ => false end.

(** The record of [u] in [attachedHats] accounts for every live actor
    attached to [u]. *)
Definition recorded (u : string) (w : World) : Prop :=
  ∀ b, b ∈ actors w → attached_to u b → attachedHats w !! u = Some (id b).

(** The container [showHatMenu] creates first in a new instance. *)
Definition menu_container : Actor :=
  {| id := 0; source := CreateEmpty;
     actor := {| parentId := None; name := None; transform := no_transform;
                 attachment := None |};
     onClick_released := None |}.

(** * Properties *)

(** ** Objects as dictionaries *)

Section js_lemmas.
Context {V : Type}.
Implicit Types (o t src : Js.Obj V) (k : string) (v : V).

Lemma get_set_eq k v o : Js.get k (Js.set k v o) = Some v.
Proof.
  induction o as [|[k' v'] o IH]; simpl.
  - by rewrite String.eqb_refl.
  - destruct (String.eqb k k') eqn:E; simpl; rewrite E; done.
Qed.

Lemma get_set_ne k k' v o : k ≠ k' → Js.get k' (Js.set k v o) = Js.get k' o.
Proof.
  intros Hne. induction o as [|[k0 v0] o IH]; simpl.
  - destruct (String.eqb k' k) eqn:E; [|done].
    apply String.eqb_eq in E. congruence.
  - destruct (String.eqb k k0) eqn:E; simpl.
    + apply String.eqb_eq in E. subst k0.
      destruct (String.eqb k' k) eqn:E'; [|done].
      apply String.eqb_eq in E'. congruence.
    + by rewrite IH.
Qed.

Lemma get_is_Some k o : is_Some (Js.get k o) ↔ k ∈ Js.own_keys o.
Proof.
  unfold Js.own_keys. induction o as [|[k' v'] o IH]; simpl.
  - split; [by intros [? ?] | by intros ?%elem_of_nil].
  - rewrite elem_of_cons. destruct (String.eqb k k') eqn:E.
    + apply String.eqb_eq in E. split; eauto.
    + apply String.eqb_neq in E. rewrite IH. split; [by right|].
      intros [?|?]; [congruence | done].
Qed.

(** Setting a property keeps the keys apart. *)
Lemma own_keys_set k v o :
  Js.own_keys (Js.set k v o) =
  if decide (k ∈ Js.own_keys o) then Js.own_keys o else Js.own_keys o ++ [k].
Proof.
  unfold Js.own_keys. induction o as [|[k' v'] o IH].
  - case_decide as H; [by apply elem_of_nil in H | done].
  - cbn [Js.set]. destruct (String.eqb k k') eqn:E.
    + apply String.eqb_eq in E. subst. cbn [map fst]. clear IH.
      rewrite decide_True; [done | by left].
    + apply String.eqb_neq in E. cbn [map fst]. rewrite IH. clear IH.
      destruct (decide (k ∈ map fst o)) as [Hin|Hout].
      * rewrite decide_True; [done | by right].
      * rewrite decide_False; [done |].
        intros [?|?]%elem_of_cons; congruence.
Qed.

Lemma wf_set k v o : Js.wf o → Js.wf (Js.set k v o).
Proof.
  unfold Js.wf. intros Hwf. rewrite own_keys_set. case_decide; [done|].
  apply NoDup_app. split_and!.
  - done.
  - intros x Hx ->%list_elem_of_singleton. done.
  - apply NoDup_singleton.
Qed.

Lemma indexed_named_Permutation (ks : list string) :
  map snd (Js.indexed ks) ++ Js.named ks ≡ₚ ks.
Proof.
  unfold Js.indexed, Js.named. induction ks as [|k ks IH]; [done|].
  simpl. rewrite filter_cons.
  destruct (Js.array_index k) as [n|] eqn:E; simpl.
  - apply perm_skip, IH.
  - rewrite <- Permutation_middle. apply perm_skip, IH.
Qed.

(** [Object.keys] lists every own key once, in some order. *)
Lemma keys_Permutation o : Js.keys o ≡ₚ Js.own_keys o.
Proof.
  unfold Js.keys.
  rewrite <- (indexed_named_Permutation (Js.own_keys o)) at 3.
  apply Permutation_app_tail, Permutation_map, merge_sort_Permutation.
Qed.

Lemma elem_of_keys k o : k ∈ Js.keys o ↔ is_Some (Js.get k o).
Proof. by rewrite keys_Permutation, get_is_Some. Qed.

Lemma NoDup_keys o : Js.wf o → NoDup (Js.keys o).
Proof. unfold Js.wf. by rewrite keys_Permutation. Qed.

Lemma length_keys o : length (Js.keys o) = length o.
Proof.
  rewrite (Permutation_length (keys_Permutation o)).
  unfold Js.own_keys. by rewrite length_map.
Qed.

Lemma get_put_ne k k' v o : k ≠ k' → Js.get k' (Js.put k v o) = Js.get k' o.
Proof.
  intros Hne. unfold Js.put.
  destruct (Js.get k o); [by apply get_set_ne|].
  destruct (String.eqb k "__proto__"); [done | by apply get_set_ne].
Qed.

Lemma get_put_eq k v o :
  k ≠ "__proto__" → Js.get k (Js.put k v o) = Some v.
Proof.
  intros Hne. unfold Js.put. apply String.eqb_neq in Hne.
  destruct (Js.get k o); rewrite ?Hne; apply get_set_eq.
Qed.

Lemma get_put_proto v o :
  Js.get "__proto__" o = None → Js.put "__proto__" v o = o.
Proof. intros H. unfold Js.put. by rewrite H. Qed.

Lemma own_keys_put k v o :
  Js.own_keys (Js.put k v o) =
  if decide (k ∈ Js.own_keys o ∨ k = "__proto__")
  then Js.own_keys o else Js.own_keys o ++ [k].
Proof.
  unfold Js.put. destruct (Js.get k o) as [v0|] eqn:E.
  - rewrite own_keys_set.
    assert (k ∈ Js.own_keys o) as Hin by (apply get_is_Some; eauto).
    rewrite !decide_True; [done | by left | done].
  - assert (k ∉ Js.own_keys o) as Hout.
    { intros [? ?]%get_is_Some. congruence. }
    destruct (String.eqb k "__proto__") eqn:Ek.
    + apply String.eqb_eq in Ek. rewrite decide_True; [done | by right].
    + apply String.eqb_neq in Ek. rewrite own_keys_set.
      rewrite !decide_False; [done | by intros [?|?] | done].
Qed.

Lemma wf_put k v o : Js.wf o → Js.wf (Js.put k v o).
Proof.
  intros Hwf. unfold Js.put.
  destruct (Js.get k o); [by apply wf_set|].
  destruct (String.eqb k "__proto__"); [done | by apply wf_set].
Qed.

(** One source copied onto a target that has no own ["__proto__"], key
    by key. *)
Lemma get_assign_keys src (ks : list string) t k :
  Js.get "__proto__" t = None →
  Js.get k
    (fold_left
       (λ t k, match Js.get k src with Some v => Js.put k v t | None => t end)
       ks t) =
  if decide (k ∈ ks ∧ k ≠ "__proto__")
  then match Js.get k src with Some v => Some v | None => Js.get k t end
  else Js.get k t.
Proof.
  revert t. induction ks as [|k0 ks IH]; intros t Hp; cbn [fold_left].
  - rewrite decide_False; [done | by intros [?%elem_of_nil _]].
  - assert (Js.get "__proto__"
              match Js.get k0 src with
              | Some v => Js.put k0 v t
              | None => t
              end = None) as Hp'.
    { destruct (Js.get k0 src) as [v|]; [|done].
      destruct (decide (k0 = "__proto__")) as [->|Hne].
      - by rewrite get_put_proto.
      - by rewrite get_put_ne. }
    rewrite (IH _ Hp'). clear IH.
    destruct (decide (k0 = k)) as [->|Hne].
    + destruct (decide (k = "__proto__")) as [->|Hk].
      * rewrite !decide_False by (by intros [_ ?]). by rewrite Hp', Hp.
      * rewrite (decide_True (P := k ∈ k :: ks ∧ _)) by (split; [by left | done]).
        destruct (Js.get k src) as [v|] eqn:E.
        -- rewrite get_put_eq by done. by case_decide.
        -- by case_decide.
    + assert (Js.get k
                match Js.get k0 src with
                | Some v => Js.put k0 v t
                | None => t
                end = Js.get k t) as ->.
      { destruct (Js.get k0 src); [by apply get_put_ne | done]. }
      destruct (decide (k ∈ ks ∧ k ≠ "__proto__")) as [[Hin Hk]|Hout].
      * rewrite decide_True; [done | split; [by right | done]].
      * rewrite decide_False; [done |].
        intros [[?|?]%elem_of_cons ?]; [congruence | by apply Hout].
Qed.

Lemma get_assign_from src t k :
  Js.get "__proto__" t = None →
  Js.get k (Js.assign_from src t) =
  if decide (k = "__proto__") then None
  else match Js.get k src with Some v => Some v | None => Js.get k t end.
Proof.
  intros Hp. unfold Js.assign_from. rewrite get_assign_keys by done.
  destruct (decide (k = "__proto__")) as [->|Hk].
  - rewrite decide_False by (by intros [_ ?]). done.
  - destruct (decide (k ∈ Js.keys src)) as [Hin|Hout].
    + rewrite decide_True; done.
    + rewrite decide_False by (by intros [? _]).
      rewrite elem_of_keys in Hout.
      destruct (Js.get k src); [|done]. exfalso. eauto.
Qed.

Lemma wf_assign_from src t : Js.wf t → Js.wf (Js.assign_from src t).
Proof.
  unfold Js.assign_from. generalize (Js.keys src) as ks.
  intros ks. revert t. induction ks as [|k ks IH]; intros t Ht; simpl; [done|].
  apply IH. destruct (Js.get k src); [by apply wf_put | done].
Qed.

(** The own properties of the loaded catalog, key by key. *)
Lemma get_assign_two (a b : Js.Obj V) k :
  Js.get k (Js.assign [] [a; b]) =
  if decide (k = "__proto__") then None
  else match Js.get k b with Some v => Some v | None => Js.get k a end.
Proof.
  unfold Js.assign. cbn [fold_left].
  assert (Js.get "__proto__" (Js.assign_from a []) = None) as Hp.
  { rewrite get_assign_from by done. by rewrite decide_True. }
  rewrite get_assign_from by done.
  destruct (decide (k = "__proto__")); [done|].
  rewrite get_assign_from by done. rewrite decide_False by done.
  cbn [Js.get]. destruct (Js.get k b); [done|]. by destruct (Js.get k a).
Qed.

Lemma loadHatDatabase_kit_json kit (files : PublicData V) :
  loadHatDatabase kit files =
  Js.assign [] [kit_json kit files; defaults_json files].
Proof.
  unfold loadHatDatabase, kit_json.
  destruct kit as [k|]; [|done].
  destruct (String.eqb k "city_helmets"); [done|].
  by destruct (String.eqb k "space_helmets").
Qed.

Lemma wf_loadHatDatabase kit (files : PublicData V) :
  Js.wf (loadHatDatabase kit files).
Proof.
  rewrite loadHatDatabase_kit_json. unfold Js.assign. simpl.
  apply wf_assign_from, wf_assign_from. apply NoDup_nil_2.
Qed.

End js_lemmas.

(** ** Clearing: [userLeft] and the clear branch of [wearHat] *)

Ltac unfold_stmt :=
  unfold destroy_if_attached, delete_attachedHats, destroy;
  unfold mbind, M_bind, mret, M_ret, gets, modify, return_, throw,
    set_attachedHats.

(** The two statements both clearing paths start with: when the read
    throws, nothing has been changed yet. *)
Lemma destroy_then_delete u w :
  (destroy_if_attached u ;; delete_attachedHats u) w =
  (clear_outcome u w, clear_spec u w).
Proof.
  unfold clear_spec, clear_outcome. unfold_stmt. unfold read_attachedHats.
  destruct (attachedHats w !! u) as [a|] eqn:Hu; cbn; [done|].
  destruct (Js.inherited u); cbn; [done|].
  rewrite (delete_id _ _ Hu). by destruct w.
Qed.

Lemma userLeft_clear_spec u w : userLeft u w = (clear_outcome u w, clear_spec u w).
Proof.
  unfold userLeft, function_body. rewrite destroy_then_delete.
  unfold clear_outcome. by destruct (read_attachedHats u w).
Qed.

Lemma wearHat_clear_spec u w :
  wearHat "clear!" u w = (clear_outcome u w, clear_spec u w).
Proof.
  unfold wearHat, function_body. cbn [String.eqb Ascii.eqb Bool.eqb].
  pose proof (destroy_then_delete u w) as H. revert H.
  unfold mbind, M_bind.
  destruct (destroy_if_attached u w) as [[[]| |e|y] w1]; cbn.
  - by intros <-.
  - intros [= Hc _]. unfold clear_outcome in Hc.
    by destruct (read_attachedHats u w).
  - done.
  - done.
Qed.

Lemma clear_outcome_worn u a w :
  attachedHats w !! u = Some a → clear_outcome u w = Normal tt.
Proof. intros H. unfold clear_outcome, read_attachedHats. by rewrite H. Qed.

Lemma clear_outcome_ordinary u w :
  Js.inherited u = false → clear_outcome u w = Normal tt.
Proof.
  intros H. unfold clear_outcome, read_attachedHats.
  destruct (attachedHats w !! u); [done | by rewrite H].
Qed.

Lemma clear_outcome_inherited u w :
  attachedHats w !! u = None → Js.inherited u = true →
  clear_outcome u w = Thrown not_a_function.
Proof.
  intros H Hi. unfold clear_outcome, read_attachedHats. by rewrite H, Hi.
Qed.

(** Whatever is selected apart from ["clear!"], the handler falls
    through the [if] and ends. *)
Lemma wearHat_not_clear hatId u w :
  hatId ≠ "clear!" → wearHat hatId u w = (Normal tt, w).
Proof.
  intros Hne. unfold wearHat, function_body.
  apply String.eqb_neq in Hne. by rewrite Hne.
Qed.

Lemma clear_spec_unworn u w : attachedHats w !! u = None → clear_spec u w = w.
Proof. intros H. unfold clear_spec. by rewrite H. Qed.

Lemma clear_spec_lookup u w : attachedHats (clear_spec u w) !! u = None.
Proof.
  unfold clear_spec. destruct (attachedHats w !! u) eqn:Hu; [|done].
  cbn. apply lookup_delete_eq.
Qed.

Lemma clear_spec_proto u w :
  HatDatabase_proto (clear_spec u w) = HatDatabase_proto w.
Proof. unfold clear_spec. by destruct (attachedHats w !! u). Qed.

Lemma clear_spec_frame u w :
  params_kit (clear_spec u w) = params_kit w ∧
  HatDatabase (clear_spec u w) = HatDatabase w ∧
  next_id (clear_spec u w) = next_id w ∧
  attachedHats (clear_spec u w) = delete u (attachedHats w).
Proof.
  unfold clear_spec. destruct (attachedHats w !! u) eqn:Hu; [done|].
  by rewrite (delete_id _ _ Hu).
Qed.


(** ** The menu loop *)

Lemma install_handler_fresh n hatId (l : list Actor) :
  Forall (λ a, id a < n) l → map (install_handler n hatId) l = l.
Proof.
  induction 1 as [|a l Ha _ IH]; [done|]. cbn [map]. rewrite IH. f_equal.
  unfold install_handler. rewrite decide_False; [done | lia].
Qed.

Lemma are_buttons_length db menu hatIds x n new :
  are_buttons db menu hatIds x n new → length new = length hatIds.
Proof.
  revert x n new. induction hatIds as [|h rest IH]; intros x n [|e new]; cbn;
    try done.
  intros [_ H]. f_equal. eauto.
Qed.

Lemma are_buttons_lookup db menu hatIds x n new i e :
  are_buttons db menu hatIds x n new → new !! i = Some e →
  ∃ hatId x', hatIds !! i = Some hatId ∧
    x' == x + (3#2) * inject_Z (Z.of_nat i) ∧
    is_button db menu hatId x' (n + i) e.
Proof.
  revert x n new i. induction hatIds as [|h rest IH]; intros x n [|e0 new] i;
    cbn [are_buttons]; try done.
  intros [Hb Hrest] Hi. destruct i as [|i].
  - cbn in Hi. injection Hi as ->. exists h, x. split_and!; [done | |].
    + cbn. ring.
    + by rewrite Nat.add_0_r.
  - cbn in Hi. destruct (IH _ _ _ _ Hrest Hi) as (hatId & x' & Hh & Hx & Hbtn).
    exists hatId, x'. split_and!; [done | |].
    + rewrite Hx, Nat2Z.inj_succ, <- Z.add_1_r, inject_Z_plus.
      change (inject_Z 1) with 1%Q. ring.
    + by replace (n + S i) with (S n + i) by lia.
Qed.

Lemma is_button_facts db menu hatId x n e :
  is_button db menu hatId x n e →
  id e = n ∧ onClick_released e = Some hatId ∧ attachment (actor e) = None.
Proof. by destruct 1. Qed.

(** One turn: a button for [hatId] is added, with its handler. *)
Lemma showHatMenu_loop_turn hatId rest menu x w r :
  Js.get hatId (HatDatabase w) = Some r →
  fresh_ids w →
  ∃ e w1,
    showHatMenu_loop (hatId :: rest) menu x w =
      showHatMenu_loop rest menu (x + (3#2)) w1 ∧
    actors w1 = actors w ++ [e] ∧
    next_id w1 = S (next_id w) ∧
    same_fields w w1 ∧
    is_button (HatDatabase w) (id menu) hatId x (next_id w) e.
Proof.
  intros Hr Hf. cbn [showHatMenu_loop].
  unfold mbind, M_bind, gets, read_HatDatabase. rewrite Hr.
  unfold create_button.
  destruct (truthy_string (resourceId r)) eqn:Htruthy;
    unfold create, setBehavior_onClick, modify, set_actors;
    cbn [id actors next_id fst snd];
    rewrite map_app, (install_handler_fresh _ _ _ Hf);
    cbn [map]; unfold install_handler; cbn [id];
    rewrite decide_True by done;
    eexists _, _; (split; [reflexivity|]); cbn;
    (split_and!; [done | done | by repeat split |]).
  - by eapply resource_button.
  - by eapply box_button.
Qed.

(** The loop, run over keys the database has, appends one button per
    key and touches nothing else. *)
Lemma showHatMenu_loop_spec hatIds menu x w :
  Forall (λ k, is_Some (Js.get k (HatDatabase w))) hatIds →
  fresh_ids w →
  ∃ w' new,
    showHatMenu_loop hatIds menu x w = (Normal tt, w') ∧
    actors w' = actors w ++ new ∧
    next_id w' = next_id w + length hatIds ∧
    same_fields w w' ∧
    are_buttons (HatDatabase w) (id menu) hatIds x (next_id w) new.
Proof.
  revert x w. induction hatIds as [|hatId rest IH]; intros x w Hkeys Hfresh.
  - exists w, []. cbn. rewrite app_nil_r, Nat.add_0_r. by repeat split.
  - apply Forall_cons in Hkeys as [[r Hr] Hrest].
    destruct (showHatMenu_loop_turn hatId rest menu x w r Hr Hfresh)
      as (e & w1 & -> & Hact & Hnext & Hsame & Hbtn).
    destruct Hsame as (Hk & Hdb & Hatt & Hdes).
    destruct (IH (x + (3#2))%Q w1)
      as (w' & new & Hrun & Hact' & Hnext' & Hsame' & Hnew).
    { by rewrite Hdb. }
    { unfold fresh_ids. rewrite Hact, Hnext. apply Forall_app. split.
      - eapply Forall_impl; [exact Hfresh|]. cbn. lia.
      - apply Forall_singleton.
        apply is_button_facts in Hbtn as [-> _]. lia. }
    exists w', (e :: new). split_and!.
    + done.
    + rewrite Hact', Hact, <- app_assoc. done.
    + rewrite Hnext', Hnext. cbn. lia.
    + destruct Hsame' as (? & ? & ? & ?). unfold same_fields.
      split_and!; congruence.
    + cbn [are_buttons]. split; [done|]. by rewrite Hdb, Hnext in Hnew.
Qed.

Lemma filter_Forall_id {A} (P : A → Prop) `{!∀ x, Decision (P x)} (l : list A) :
  Forall P l → filter P l = l.
Proof.
  induction 1 as [|a l Ha _ IH]; [done|].
  rewrite filter_cons, decide_True by done. by rewrite IH.
Qed.

Lemma are_buttons_handlers db menu hatIds x n new :
  are_buttons db menu hatIds x n new →
  omap onClick_released new = hatIds ∧
  Forall (λ e, is_Some (onClick_released e)) new ∧
  Forall (λ e, attachment (actor e) = None) new.
Proof.
  revert x n new. induction hatIds as [|h rest IH]; intros x n [|e new];
    cbn [are_buttons]; try done.
  intros [Hb Hrest]. destruct (IH _ _ _ Hrest) as (Hk & Hh & Ha).
  apply is_button_facts in Hb as (_ & Hclick & Hatt).
  split_and!.
  - cbn. rewrite Hclick. cbn. by f_equal.
  - constructor; [by rewrite Hclick | done].
  - by constructor.
Qed.

(** [showHatMenu] on a scene without buttons: the container, then one
    button per enumerated key. *)
Lemma showHatMenu_spec w :
  fresh_ids w →
  ∃ w' menu new,
    showHatMenu w = (Normal tt, w') ∧
    actors w' = actors w ++ menu :: new ∧
    id menu = next_id w ∧
    onClick_released menu = None ∧ attachment (actor menu) = None ∧
    same_fields w w' ∧
    are_buttons (HatDatabase w) (id menu) (Js.keys (HatDatabase w)) 0
      (S (next_id w)) new.
Proof.
  intros Hf. unfold showHatMenu, function_body.
  unfold mbind, M_bind, gets, create at 1. cbn [HatDatabase].
  set (menu := {| id := next_id w; source := CreateEmpty;
                  actor := {| parentId := None; name := None;
                              transform := no_transform;
                              attachment := None |};
                  onClick_released := None |}).
  set (w0 := {| params_kit := params_kit w; HatDatabase := HatDatabase w;
                HatDatabase_proto := HatDatabase_proto w;
                attachedHats := attachedHats w;
                actors := actors w ++ [menu];
                next_id := S (next_id w); destroyed := destroyed w |}).
  destruct (showHatMenu_loop_spec (Js.keys (HatDatabase w)) menu 0 w0)
    as (w' & new & Hrun & Hact & Hnext & Hsame & Hnew).
  { apply Forall_forall. intros k Hk. by apply elem_of_keys in Hk. }
  { unfold fresh_ids, w0. cbn. apply Forall_app. split.
    - eapply Forall_impl; [exact Hf|]. cbn. lia.
    - apply Forall_singleton. cbn. lia. }
  exists w', menu, new. rewrite Hrun. split_and!; try done.
  by rewrite Hact; cbn; rewrite <- app_assoc.
Qed.

Lemma showHatMenu_entries w :
  fresh_ids w → actors w = [] →
  ∃ w' menu,
    showHatMenu w = (Normal tt, w') ∧ same_fields w w' ∧
    actors w' = menu :: menu_entries w' ∧
    id menu = next_id w ∧
    are_buttons (HatDatabase w) (id menu) (Js.keys (HatDatabase w)) 0
      (S (next_id w)) (menu_entries w').
Proof.
  intros Hf Hnil.
  destruct (showHatMenu_spec w Hf)
    as (w' & menu & new & Hrun & Hact & Hid & Hmenu & Hatt & Hsame & Hnew).
  rewrite Hnil in Hact. cbn in Hact.
  assert (menu_entries w' = new) as Hentries.
  { unfold menu_entries. rewrite Hact, filter_cons, decide_False.
    - apply filter_Forall_id. by eapply are_buttons_handlers.
    - rewrite Hmenu. by intros [? ?]. }
  exists w', menu. rewrite Hentries. by split_and!.
Qed.

Lemma menu_rotation_cases hatId r :
  menu_rotation hatId r =
  if regex_test_bang_end hatId then default (vec 0 0 0) (rotation r)
  else vec 0 0 0.
Proof.
  unfold menu_rotation.
  by destruct (regex_test_bang_end hatId), (rotation r).
Qed.

Lemma menu_scale_cases hatId r :
  menu_scale hatId r =
  if regex_test_bang_end hatId then default (vec 3 3 3) (scale r)
  else vec 3 3 3.
Proof.
  unfold menu_scale.
  by destruct (regex_test_bang_end hatId), (scale r).
Qed.

(** A scene whose actors carry their list position as id: a click on
    an id reaches the actor in that position. *)
Lemma list_find_by_id (l : list Actor) k b :
  (∀ j a, l !! j = Some a → id a = j) →
  l !! k = Some b →
  list_find (λ a, id a = id b) l = Some (k, b).
Proof.
  intros Hid Hk. apply list_find_Some. split_and!; [done | done |].
  intros j a Hj Hlt Heq.
  apply Hid in Hj. apply Hid in Hk. lia.
Qed.

Lemma are_buttons_ids db menu hatIds x n new j a :
  are_buttons db menu hatIds x n new → new !! j = Some a → id a = n + j.
Proof.
  intros Hnew Hj.
  destruct (are_buttons_lookup _ _ _ _ _ _ _ _ Hnew Hj) as (h & x' & _ & _ & Hb).
  by apply is_button_facts in Hb as [? _].
Qed.

Lemma menu_of_spec db kit :
  ∃ w' menu,
    menu_of db kit = (Normal tt, w') ∧
    HatDatabase w' = db ∧ attachedHats w' = ∅ ∧ destroyed w' = [] ∧
    actors w' = menu :: menu_entries w' ∧
    id menu = 0 ∧
    are_buttons db 0 (Js.keys db) 0 1 (menu_entries w').
Proof.
  unfold menu_of.
  destruct (showHatMenu_entries (set_HatDatabase db (new_WearAHat kit)))
    as (w' & menu & Hrun & Hsame & Hact & Hid & Hnew);
    [by apply Forall_nil | done |].
  destruct Hsame as (_ & Hdb & Hhats & Hdes).
  exists w', menu. rewrite Hid in Hnew. by split_and!.
Qed.

(** ** The menu builder *)

(** C8.  For every catalog (an object, so with distinct keys; of any
    size), [showHatMenu] ends normally and leaves exactly one menu
    entry per catalog key: the handlers of the entries, in creation
    order, are the enumerated keys, a permutation of the catalog's
    keys without repetition; the i-th entry created (from 0) stands at
    x = 1.5 * i with z = 0, its handler holds the i-th key, and a click
    on it by any user calls [wearHat] with exactly that key. *)
Theorem showHatMenu_one_entry_per_key
    (db : Js.Obj HatDescriptor) (kit : option string) :
  Js.wf db →
  let built := menu_of db kit in
  let entries := menu_entries built.2 in
  built.1 = Normal tt ∧
  HatDatabase built.2 = db ∧
  omap onClick_released entries = Js.keys db ∧
  omap onClick_released entries ≡ₚ Js.own_keys db ∧
  NoDup (omap onClick_released entries) ∧
  length entries = length db ∧
  ∀ i e, entries !! i = Some e →
    ∃ hatId p,
      Js.keys db !! i = Some hatId ∧
      onClick_released e = Some hatId ∧
      t_position (transform (actor e)) = Some p ∧
      x_ p == (3#2) * inject_Z (Z.of_nat i) ∧ z_ p == 0 ∧
      ∀ u, click (id e) u built.2 = wearHat hatId u built.2.
Proof.
  intros Hwf built entries. subst entries built.
  destruct (menu_of_spec db kit)
    as (w' & menu & -> & Hdb & _ & _ & Hact & Hmenu & Hnew).
  cbn [fst snd].
  destruct (are_buttons_handlers _ _ _ _ _ _ Hnew) as (Hkeys & _ & _).
  split_and!; try done.
  - rewrite Hkeys. apply keys_Permutation.
  - rewrite Hkeys. by apply NoDup_keys.
  - rewrite <- (length_keys db). by eapply are_buttons_length.
  - intros i e Hi.
    destruct (are_buttons_lookup _ _ _ _ _ _ _ _ Hnew Hi)
      as (hatId & x' & Hk & Hx & Hb).
    assert (list_find (λ a, id a = id e) (actors w') = Some (S i, e)) as Hfind.
    { apply list_find_by_id; rewrite Hact; [|done].
      intros [|j] a Hj; cbn in Hj; [congruence|].
      by rewrite (are_buttons_ids _ _ _ _ _ _ _ _ Hnew Hj). }
    assert (onClick_released e = Some hatId) as Hclick
      by by apply is_button_facts in Hb as (_ & ? & _).
    assert (∀ u, click (id e) u w' = wearHat hatId u w') as Hrun.
    { intros u. unfold click, mbind, M_bind, gets. by rewrite Hfind, Hclick. }
    destruct Hb as [r Hr Ht | r Hr Ht]; eexists hatId, _;
      (split_and!; [done | done | reflexivity | | reflexivity | done]);
      cbn; rewrite Hx; ring.
Qed.

Lemma showHatMenu_one_entry_per_key_witness :
  Js.wf Sample.catalog ∧
  omap onClick_released (menu_entries (menu_of Sample.catalog None).2)
    = Js.keys Sample.catalog ∧
  length (menu_entries (menu_of Sample.catalog None).2) = 4 ∧
  menu_entries (menu_of Sample.catalog None).2 !! 0 = Some Sample.pilot_button ∧
  ∃ hatId p,
    Js.keys Sample.catalog !! 0 = Some hatId ∧
    onClick_released Sample.pilot_button = Some hatId ∧
    t_position (transform (actor Sample.pilot_button)) = Some p ∧
    x_ p == (3#2) * inject_Z (Z.of_nat 0) ∧ z_ p == 0 ∧
    ∀ u, click (id Sample.pilot_button) u (menu_of Sample.catalog None).2
         = wearHat hatId u (menu_of Sample.catalog None).2.
Proof.
  assert (Js.wf Sample.catalog) as Hwf.
  { apply (bool_decide_unpack _). vm_compute. exact I. }
  assert (menu_entries (menu_of Sample.catalog None).2 !! 0
          = Some Sample.pilot_button) as Hfirst.
  { vm_compute. reflexivity. }
  split; [exact Hwf|].
  destruct (showHatMenu_one_entry_per_key Sample.catalog None Hwf)
    as (_ & _ & Hkeys & _ & _ & Hlen & Hentry).
  split; [exact Hkeys|]. split; [exact Hlen|]. split; [exact Hfirst|].
  exact (Hentry 0 Sample.pilot_button Hfirst).
Defined.

(** C9 (as amended).  For a resource-backed entry the menu rotation and
    scale are decided by whether the id ends in "!": a command entry
    takes the descriptor's own rotation and scale where the descriptor
    has them and zero rotation and scale (3,3,3) where it has not;
    every other resource-backed entry gets zero rotation and scale
    (3,3,3) whatever the descriptor holds.  The position is (x, 1, 0)
    in both cases: the descriptor's position is not used. *)
Theorem menu_transform_policy
    (db : Js.Obj HatDescriptor) (kit : option string)
    (i : nat) (e : Actor) (hatId : string) (r : HatDescriptor) :
  menu_entries (menu_of db kit).2 !! i = Some e →
  onClick_released e = Some hatId →
  Js.get hatId db = Some r →
  truthy_string (resourceId r) = true →
  source e = CreateFromLibrary (resourceId r) ∧
  (∃ x, t_position (transform (actor e)) = Some (vec x 1 0)) ∧
  t_rotation (transform (actor e)) =
    Some (if regex_test_bang_end hatId
          then default (vec 0 0 0) (rotation r) else vec 0 0 0) ∧
  t_scale (transform (actor e)) =
    Some (if regex_test_bang_end hatId
          then default (vec 3 3 3) (scale r) else vec 3 3 3).
Proof.
  intros Hi Hclick Hr Htruthy.
  destruct (menu_of_spec db kit)
    as (w' & menu & Hrun & _ & _ & _ & _ & _ & Hnew).
  rewrite Hrun in Hi. cbn [snd] in Hi.
  destruct (are_buttons_lookup _ _ _ _ _ _ _ _ Hnew Hi)
    as (hatId' & x' & _ & _ & Hb).
  destruct Hb as [r' Hr' Ht | r' Hr' Ht]; cbn in Hclick;
    injection Hclick as ->; rewrite Hr in Hr'; injection Hr' as <-;
    [|congruence].
  cbn. rewrite menu_rotation_cases, menu_scale_cases. eauto.
Qed.

Lemma menu_transform_policy_witness :
  menu_entries (menu_of Sample.catalog None).2 !! 0 = Some Sample.pilot_button ∧
  Js.get "pilot" Sample.catalog = Some Sample.pilot ∧
  t_scale (transform (actor Sample.pilot_button)) = Some (vec 3 3 3).
Proof.
  split; [vm_compute; reflexivity|]. split; [vm_compute; reflexivity|].
  apply (menu_transform_policy Sample.catalog None 0 Sample.pilot_button
           "pilot" Sample.pilot); vm_compute; reflexivity.
Defined.

(** C9 as stated fails on the position.  In the started sample session
    the entry of the command "clear!" is resource-backed and its
    descriptor has position (5,5,5); the menu puts it at (x, 1, 0). *)
Lemma menu_command_position_counterexample :
  ∃ e p,
    menu_entries Sample.session !! 3 = Some e ∧
    onClick_released e = Some "clear!" ∧
    Js.get "clear!" (HatDatabase Sample.session) = Some Sample.clear_command ∧
    truthy_string (resourceId Sample.clear_command) = true ∧
    regex_test_bang_end "clear!" = true ∧
    position Sample.clear_command = Some (vec 5 5 5) ∧
    t_position (transform (actor e)) = Some p ∧
    ¬ (y_ p == 5) ∧ ¬ (z_ p == 5).
Proof.
  eexists _, _. split_and!; try (vm_compute; reflexivity).
  - vm_compute. discriminate.
  - vm_compute. discriminate.
Qed.

(** ** The attachment map *)

(** What follows the two clearing statements runs in the cleared
    state, unless the read has thrown. *)
Lemma clear_then {A} (k : M A) u w :
  (destroy_if_attached u ;; delete_attachedHats u ;; k) w =
  match clear_outcome u w with
  | Thrown e => (Thrown e, clear_spec u w)
  | _ => k (clear_spec u w)
  end.
Proof.
  unfold clear_spec, clear_outcome. unfold_stmt. unfold read_attachedHats.
  destruct (attachedHats w !! u) as [a|] eqn:Hu; cbn; [done|].
  destruct (Js.inherited u); cbn; [done|].
  rewrite (delete_id _ _ Hu). by destruct w.
Qed.

Lemma inherited_proto u : Js.inherited u = false → u ≠ "__proto__".
Proof. by intros H ->. Qed.

(** The statements after the [return], run on their own for a user
    whose read does not throw, do attach: the hat worn before is
    destroyed, the new one is created with the resolved transform on
    the user's head and recorded for the user. *)
Lemma wearHat_after_return_attaches hatId u w r :
  Js.get hatId (HatDatabase w) = Some r →
  clear_outcome u w = Normal tt →
  u ≠ "__proto__" →
  ∃ hat,
    wearHat_after_return hatId u w =
      (Normal tt,
       {| params_kit := params_kit w; HatDatabase := HatDatabase w;
          HatDatabase_proto := HatDatabase_proto w;
          attachedHats := <[u := next_id w]> (attachedHats w);
          actors := actors (clear_spec u w) ++ [hat];
          next_id := S (next_id w);
          destroyed := destroyed (clear_spec u w) |}) ∧
    id hat = next_id w ∧
    source hat = CreateFromLibrary (resourceId r) ∧
    transform (actor hat) =
      {| t_position := Some (attach_position r);
         t_rotation := Some (attach_rotation r);
         t_scale := Some (attach_scale r) |} ∧
    attachment (actor hat) = Some {| attachPoint := "head"; userId := u |}.
Proof.
  intros Hr Hout Hu. unfold wearHat_after_return.
  rewrite clear_then, Hout. unfold mbind, M_bind, gets, read_HatDatabase.
  destruct (clear_spec_frame u w) as (Hkit & Hdb & Hnext & Hhats).
  rewrite Hdb, Hr. unfold create, assign_attachedHats.
  unfold mbind, M_bind, gets, modify, set_attachedHats. cbn.
  rewrite Hhats, lookup_delete_eq.
  apply String.eqb_neq in Hu. rewrite Hu. cbn.
  rewrite Hkit, Hdb, Hnext, insert_delete_eq, clear_spec_proto.
  eexists. split; [reflexivity | by split_and!].
Qed.

(** No statement of [wearHat] lies after its [if]: whatever stands
    after the [return] in the block, the function is the same. *)
Lemma wearHat_tail_dead hatId u (tail : M unit) w :
  function_body (
    if String.eqb hatId "clear!" then
      destroy_if_attached u ;; delete_attachedHats u ;; return_ ;; tail
    else mret tt) w = wearHat hatId u w.
Proof.
  unfold wearHat, function_body.
  destruct (String.eqb hatId "clear!"); [|done].
  unfold mbind, M_bind.
  destruct (destroy_if_attached u w) as [[[]| |e|y] w1]; [|done..].
  by destruct (delete_attachedHats u w1) as [[[]| |e|y] w2].
Qed.

(** C1, the code on the spec's own scenario.  In the started sample
    session the catalog has "pilot" and "crown" and user "u1" wears
    nothing.  Selecting "pilot", directly or by a click on its menu
    button, ends normally with the state untouched: no actor is
    created and "u1" stays unmapped; selecting "crown" next changes
    nothing either, so no attachment exists for "u1" and nothing was
    destroyed.  The statements after the [return], were they run,
    would record the new actor for "u1". *)
Lemma wearHat_known_hat_attaches_nothing :
  Js.get "pilot" (HatDatabase Sample.session) = Some Sample.pilot ∧
  Js.get "crown" (HatDatabase Sample.session) = Some Sample.crown ∧
  attachedHats Sample.session !! "u1" = None ∧
  wearHat "pilot" "u1" Sample.session = (Normal tt, Sample.session) ∧
  click 1 "u1" Sample.session = (Normal tt, Sample.session) ∧
  (run [Select "pilot" "u1"; Select "crown" "u1"] Sample.session)
    = Sample.session ∧
  attachedHats
    (run [Select "pilot" "u1"; Select "crown" "u1"] Sample.session) !! "u1"
    = None ∧
  attachments_of "u1"
    (run [Select "pilot" "u1"; Select "crown" "u1"] Sample.session) = [] ∧
  destroyed (run [Select "pilot" "u1"; Select "crown" "u1"] Sample.session)
    = [] ∧
  attachedHats (wearHat_after_return "pilot" "u1" Sample.session).2 !! "u1"
    = Some 5.
Proof. split_and!; vm_compute; reflexivity.
Qed.

(** Lines 192-194 resolve each component on its own. *)
Lemma attach_transform_cases r :
  attach_position r = default (vec 0 0 0) (position r) ∧
  attach_scale r = default (vec (3#2) (3#2) (3#2)) (scale r) ∧
  attach_rotation r = default (vec 0 180 0) (rotation r).
Proof.
  unfold attach_position, attach_scale, attach_rotation.
  by destruct (position r), (scale r), (rotation r).
Qed.

(** C7, the code on a descriptor without position, scale or rotation.
    Lines 192-194 resolve the three components of "pilot" to (0,0,0),
    (1.5,1.5,1.5) and (0,180,0), and the statements after the [return]
    would create the hat of "u1" with that transform on the head; but
    [wearHat "pilot" "u1"] creates no actor at all, so no attach-time
    transform is ever computed. *)
Lemma wearHat_never_resolves_transform :
  position Sample.pilot = None ∧ scale Sample.pilot = None ∧
  rotation Sample.pilot = None ∧
  Js.get "pilot" (HatDatabase Sample.session) = Some Sample.pilot ∧
  attach_position Sample.pilot = vec 0 0 0 ∧
  attach_scale Sample.pilot = vec (3#2) (3#2) (3#2) ∧
  attach_rotation Sample.pilot = vec 0 180 0 ∧
  actors (wearHat_after_return "pilot" "u1" Sample.session).2 =
    actors Sample.session ++
    [{| id := 5; source := CreateFromLibrary (Some "artifact:1166");
        actor := {| parentId := None; name := None;
                    transform :=
                      {| t_position := Some (vec 0 0 0);
                         t_rotation := Some (vec 0 180 0);
                         t_scale := Some (vec (3#2) (3#2) (3#2)) |};
                    attachment := Some {| attachPoint := "head";
                                          userId := "u1" |} |};
        onClick_released := None |}] ∧
  (wearHat "pilot" "u1" Sample.session).1 = Normal tt ∧
  actors (wearHat "pilot" "u1" Sample.session).2 = actors Sample.session ∧
  attachments_of "u1" (wearHat "pilot" "u1" Sample.session).2 = [].
Proof. split_and!; vm_compute; reflexivity. Qed.

(** C10.  For every user and every [hatId] other than "clear!",
    [wearHat] ends normally and leaves the whole state as it was: the
    attachment map, the live actors (nothing created, nothing
    destroyed), the destroy log and the id counter. *)
Theorem wearHat_other_than_clear_is_noop (hatId u : string) (w : World) :
  hatId ≠ "clear!" →
  wearHat hatId u w = (Normal tt, w) ∧
  attachedHats (wearHat hatId u w).2 = attachedHats w ∧
  actors (wearHat hatId u w).2 = actors w ∧
  destroyed (wearHat hatId u w).2 = destroyed w.
Proof. intros Hne. by rewrite (wearHat_not_clear _ _ _ Hne). Qed.

Lemma wearHat_other_than_clear_is_noop_witness :
  "pilot" ≠ "clear!" ∧
  wearHat "pilot" "u1" Sample.wearing = (Normal tt, Sample.wearing).
Proof.
  split; [discriminate|].
  apply (wearHat_other_than_clear_is_noop "pilot" "u1" Sample.wearing).
  discriminate.
Defined.




(** C4.  For every user and every state, selecting "clear!" and the
    departure of the user both leave the state the spec's [clear]
    gives: with an attachment, the actor is destroyed and the user's
    entry removed; without one, the state is unchanged.  The two calls
    agree in everything, their completion included: they return
    normally, except that for a user without a record whose id names a
    member of [Object.prototype] the read of lines 89 and 180 throws a
    TypeError before anything is changed. *)
Theorem clear_command_and_userLeft_are_clear (u : string) (w : World) :
  (wearHat "clear!" u w).2 = clear_spec u w ∧
  (userLeft u w).2 = clear_spec u w ∧
  wearHat "clear!" u w = userLeft u w ∧
  (userLeft u w).1 =
    match attachedHats w !! u with
    | Some _ => Normal tt
    | None => if Js.inherited u then Thrown not_a_function else Normal tt
    end.
Proof.
  rewrite wearHat_clear_spec, userLeft_clear_spec. cbn [fst snd].
  split_and!; try done.
  unfold clear_outcome, read_attachedHats.
  destruct (attachedHats w !! u); [done|]. by destruct (Js.inherited u).
Qed.




(** ** At most one attachment per user *)

Lemma attached_to_install u n h a :
  attached_to u (install_handler n h a) ↔ attached_to u a.
Proof. unfold install_handler, attached_to. by case_decide. Qed.

Lemma attachments_install u n h (l : list Actor) :
  length (filter (attached_to u) (map (install_handler n h) l)) =
  length (filter (attached_to u) l).
Proof.
  induction l as [|a l IH]; [done|]. cbn [map]. rewrite !filter_cons.
  pose proof (attached_to_install u n h a) as Ha.
  destruct (decide (attached_to u (install_handler n h a))),
    (decide (attached_to u a)); cbn; try tauto; by rewrite IH.
Qed.

Lemma filter_unattached u (a : Actor) :
  attachment (actor a) = None → filter (attached_to u) [a] = [].
Proof.
  intros Ha. rewrite filter_cons, decide_False; [done|].
  unfold attached_to. by rewrite Ha.
Qed.

(** The menu loop attaches nothing, also when it throws half-way. *)
Lemma showHatMenu_loop_attachments u hatIds menu x w :
  length (attachments_of u (showHatMenu_loop hatIds menu x w).2) =
  length (attachments_of u w).
Proof.
  revert x w. induction hatIds as [|hatId rest IH]; intros x w; [done|].
  cbn [showHatMenu_loop]. unfold mbind, M_bind, gets.
  destruct (read_HatDatabase hatId w) as [r|]; [|done].
  unfold create_button.
  destruct (truthy_string (resourceId r));
    unfold create, setBehavior_onClick, modify, set_actors;
    cbn [id actors next_id fst snd]; rewrite IH;
    unfold attachments_of; cbn [actors];
    rewrite attachments_install, filter_app, length_app,
      filter_unattached by done;
    cbn; lia.
Qed.

Lemma showHatMenu_attachments u w :
  length (attachments_of u (showHatMenu w).2) = length (attachments_of u w).
Proof.
  unfold showHatMenu, function_body, mbind, M_bind, gets, create.
  match goal with
  | |- context [showHatMenu_loop ?ks ?m ?x ?w0] =>
      pose proof (showHatMenu_loop_attachments u ks m x w0) as H;
      destruct (showHatMenu_loop ks m x w0) as [[[]| |e|y] w1]
  end; cbn [snd] in *; rewrite H;
    unfold attachments_of; cbn [actors];
    rewrite filter_app, length_app, filter_unattached by done; cbn; lia.
Qed.

Lemma onStarted_attachments u files w :
  length (attachments_of u (onStarted files w).2) = length (attachments_of u w).
Proof.
  unfold onStarted, function_body, started, async_function_body.
  unfold mbind, M_bind, gets, modify. cbn [snd].
  by rewrite showHatMenu_attachments.
Qed.

Lemma length_filter_filter {A} (P Q : A → Prop)
    `{!∀ x, Decision (P x)} `{!∀ x, Decision (Q x)} (l : list A) :
  (length (filter P (filter Q l)) ≤ length (filter P l))%nat.
Proof.
  induction l as [|a l IH]; [done|]. rewrite !filter_cons.
  destruct (decide (Q a)), (decide (P a)); rewrite ?filter_cons;
    repeat case_decide; cbn; try tauto; lia.
Qed.

Lemma clear_spec_attachments u u' w :
  (length (attachments_of u' (clear_spec u w)) ≤ length (attachments_of u' w))%nat.
Proof.
  unfold clear_spec. destruct (attachedHats w !! u) as [a|]; [|done].
  unfold attachments_of. cbn [actors]. apply length_filter_filter.
Qed.

Lemma wearHat_state hatId u w :
  (wearHat hatId u w).2 = w ∨ (wearHat hatId u w).2 = clear_spec u w.
Proof.
  destruct (decide (hatId = "clear!")) as [->|Hne].
  - right. by rewrite wearHat_clear_spec.
  - left. by rewrite wearHat_not_clear.
Qed.

Lemma click_state b u w :
  (click b u w).2 = w ∨ (click b u w).2 = clear_spec u w.
Proof.
  unfold click, mbind, M_bind, gets.
  destruct (list_find _ _) as [[? a]|]; [|by left].
  destruct (onClick_released a); [apply wearHat_state | by left].
Qed.

(** No event adds an attachment for anybody. *)
Lemma handle_attachments e u w :
  (length (attachments_of u (handle e w).2) ≤ length (attachments_of u w))%nat.
Proof.
  destruct e as [files|u'|b u'|h u']; cbn [handle].
  - by rewrite onStarted_attachments.
  - rewrite userLeft_clear_spec. apply clear_spec_attachments.
  - destruct (click_state b u' w) as [->| ->];
      [done | apply clear_spec_attachments].
  - destruct (wearHat_state h u' w) as [->| ->];
      [done | apply clear_spec_attachments].
Qed.

Lemma handle_at_most_one e w : at_most_one w → at_most_one (handle e w).2.
Proof.
  intros Hw u. specialize (Hw u).
  pose proof (handle_attachments e u w). lia.
Qed.

Lemma trace_at_most_one es w : at_most_one w → Forall at_most_one (trace es w).
Proof.
  revert w. induction es as [|e es IH]; intros w Hw; cbn [trace].
  - by apply Forall_singleton.
  - constructor; [done|]. by apply IH, handle_at_most_one.
Qed.

Lemma trace_length es w : length (trace es w) = S (length es).
Proof.
  revert w. induction es as [|e es IH]; intros w; [done|].
  cbn [trace length]. by rewrite IH.
Qed.

Lemma trace_last es w : last (trace es w) = Some (run es w).
Proof.
  revert w. induction es as [|e es IH]; intros w; [done|].
  change (run (e :: es) w) with (run es (handle e w).2).
  rewrite <- IH. cbn [trace].
  destruct (trace es (handle e w).2) as [|w1 ws] eqn:E; [|done].
  by destruct es.
Qed.

(** C2.  From a new instance, whatever finite sequence of events the
    host delivers (session start, clicks, selections of any id, clear,
    user departures), every state the instance goes through, the first
    and the last included, has at most one live actor attached to any
    one user, and the last of these states is the state after the
    whole sequence. *)
Theorem at_most_one_attachment (kit : option string) (es : list Event) :
  Forall at_most_one (trace es (new_WearAHat kit)) ∧
  last (trace es (new_WearAHat kit)) = Some (run es (new_WearAHat kit)) ∧
  at_most_one (run es (new_WearAHat kit)).
Proof.
  assert (Forall at_most_one (trace es (new_WearAHat kit))) as Hall.
  { apply trace_at_most_one. intros u. cbn. lia. }
  split_and!; [done | apply trace_last |].
  eapply Forall_forall; [exact Hall|].
  apply list_elem_of_lookup. exists (length es).
  pose proof (trace_last es (new_WearAHat kit)) as Hlast.
  rewrite last_lookup in Hlast.
  by rewrite trace_length in Hlast.
Qed.

(** ** Loading the catalog *)

(** C3 as stated fails.  With defaults [{a:1, b:2}] and kit data
    [{b:3, c:4}] the loaded catalog is not [{a:1, b:3, c:4}]: under
    "b" it holds the defaults' 2. *)
Lemma loadHatDatabase_kit_does_not_win :
  Js.get "b" (loadHatDatabase (Some "city_helmets") Sample.merge_files) = Some 2 ∧
  Js.get "b" Sample.expected_by_spec = Some 3 ∧
  ¬ (∀ k, Js.get k (loadHatDatabase (Some "city_helmets") Sample.merge_files)
          = Js.get k Sample.expected_by_spec).
Proof.
  split_and!; [vm_compute; reflexivity | vm_compute; reflexivity |].
  intros H. specialize (H "b"). vm_compute in H. discriminate.
Qed.

(** C3 (as amended).  For every kit selection the loaded catalog is the
    kit-specific set applied first and the shared defaults applied
    second: under every key other than "__proto__" the defaults' value
    wins where the defaults have the key, and the kit's value fills the
    remaining keys; a key "__proto__" of either set never becomes an
    entry ([Object.assign] hands it to the prototype setter); the keys
    are distinct.  On defaults [{a:1, b:2}] and kit data [{b:3, c:4}]
    the result is [{b:2, c:4, a:1}], for each kit. *)
Theorem loadHatDatabase_defaults_win
    {V : Type} (kit : option string) (files : PublicData V) :
  (∀ k, Js.get k (loadHatDatabase kit files) =
        if decide (k = "__proto__") then None
        else match Js.get k (defaults_json files) with
             | Some v => Some v
             | None => Js.get k (kit_json kit files)
             end) ∧
  Js.wf (loadHatDatabase kit files) ∧
  loadHatDatabase kit Sample.merge_files = [("b", 2); ("c", 4); ("a", 1)].
Proof.
  split_and!.
  - intros k. rewrite loadHatDatabase_kit_json. apply get_assign_two.
  - apply wf_loadHatDatabase.
  - rewrite loadHatDatabase_kit_json.
    assert (kit_json kit Sample.merge_files = [("b", 3); ("c", 4)]) as ->.
    { unfold kit_json. destruct kit as [k|]; [|done].
      destruct (String.eqb k "city_helmets"); [done|].
      by destruct (String.eqb k "space_helmets"). }
    vm_compute. reflexivity.
Qed.

(** * Further properties of the code *)

(** ** Command ids *)

(** X6.  The test of line 110, [/!$/.test(hatId)], holds exactly for the ids
    whose last character is "!": neither the empty id nor an id with
    "!" only elsewhere is a command. *)
Theorem regex_test_bang_end_iff (s : string) :
  regex_test_bang_end s = true ↔ ∃ s', s = String.append s' "!".
Proof.
  split.
  - induction s as [|c r IH]; [done|]. cbn [regex_test_bang_end].
    destruct r as [|c' r'].
    + intros ->%bool_decide_eq_true. by exists EmptyString.
    + intros [s' Hs']%IH. exists (String c s'). by rewrite Hs'.
  - intros [s' ->]. induction s' as [|c r IH]; [done|].
    change (String.append (String c r) "!")
      with (String c (String.append r "!")).
    cbn [regex_test_bang_end].
    destruct (String.append r "!") eqn:E; [by destruct r | done].
Qed.

(** ** The order of the catalog *)

Lemma filter_ext_in {A} (P Q : A → Prop)
    `{!∀ x, Decision (P x)} `{!∀ x, Decision (Q x)} (l : list A) :
  (∀ x, x ∈ l → P x ↔ Q x) → filter P l = filter Q l.
Proof.
  induction l as [|a l IH]; intros Hext; [done|]. rewrite !filter_cons.
  rewrite IH by (intros x Hx; apply Hext; by right).
  assert (P a ↔ Q a) as Ha by (apply Hext; by left).
  destruct (decide (P a)), (decide (Q a)); try done; tauto.
Qed.

(** Copying the keys [ks] of a source onto a target keeps the target's
    keys in place and adds the new ones behind them, in order, but for
    ["__proto__"]. *)
Lemma own_keys_assign_keys {V} (src : Js.Obj V) (ks : list string) (t : Js.Obj V) :
  NoDup ks →
  Forall (λ k, is_Some (Js.get k src)) ks →
  Js.own_keys
    (fold_left
       (λ t k, match Js.get k src with Some v => Js.put k v t | None => t end)
       ks t) =
  Js.own_keys t ++ filter (λ k, k ≠ "__proto__" ∧ k ∉ Js.own_keys t) ks.
Proof.
  intros Hnd. revert t. induction Hnd as [|k ks Hk Hnd IH]; intros t Hall.
  - cbn. by rewrite app_nil_r.
  - apply Forall_cons in Hall as [[v Hv] Hall]. cbn [fold_left].
    rewrite Hv, IH, own_keys_put, filter_cons by done.
    destruct (decide (k ∈ Js.own_keys t ∨ k = "__proto__")) as [Hin|Hout].
    + rewrite decide_False; [done | tauto].
    + rewrite decide_True by tauto. rewrite <- app_assoc. cbn. do 2 f_equal.
      apply filter_ext_in. intros x Hx.
      rewrite elem_of_app, list_elem_of_singleton.
      split; [tauto|]. intros [Hp Hx']. split; [done|].
      intros [Hin|Heq]; [done | by subst].
Qed.

Lemma own_keys_assign_from {V} (src t : Js.Obj V) :
  Js.wf src →
  Js.own_keys (Js.assign_from src t) =
  Js.own_keys t ++
  filter (λ k, k ≠ "__proto__" ∧ k ∉ Js.own_keys t) (Js.keys src).
Proof.
  intros Hwf. unfold Js.assign_from. apply own_keys_assign_keys.
  - by apply NoDup_keys.
  - apply Forall_forall. intros k Hk. by apply elem_of_keys in Hk.
Qed.

(** Without array-index keys the enumeration order is the creation
    order. *)
Lemma keys_no_index {V} (o : Js.Obj V) :
  Forall (λ k, Js.array_index k = None) (Js.own_keys o) →
  Js.keys o = Js.own_keys o.
Proof.
  intros Hall. unfold Js.keys.
  assert (Js.indexed (Js.own_keys o) = []) as ->.
  { unfold Js.indexed. induction Hall as [|k ks Hk _ IH]; [done|].
    cbn. by rewrite Hk. }
  cbn. by apply filter_Forall_id.
Qed.

(** X1.  The catalog lists the keys of the kit file first, in the kit
    file's order, and behind them the keys only the defaults have, in
    the defaults' order: a default that overrides a kit entry takes over
    the kit entry's place.  A key "__proto__" of either file is left
    out.  (For files with distinct keys, none of them an array
    index.) *)
Theorem loadHatDatabase_key_order
    {V : Type} (kit : option string) (files : PublicData V) :
  Js.wf (kit_json kit files) →
  Js.wf (defaults_json files) →
  Forall (λ k, Js.array_index k = None)
    (Js.own_keys (kit_json kit files) ++ Js.own_keys (defaults_json files)) →
  Js.keys (loadHatDatabase kit files) =
  filter (λ k, k ≠ "__proto__") (Js.own_keys (kit_json kit files)) ++
  filter (λ k, k ≠ "__proto__" ∧ k ∉ Js.own_keys (kit_json kit files))
    (Js.own_keys (defaults_json files)).
Proof.
  intros Hkit Hdef [Hk Hd]%Forall_app.
  assert (Js.own_keys (loadHatDatabase kit files) =
          filter (λ k, k ≠ "__proto__") (Js.own_keys (kit_json kit files)) ++
          filter (λ k, k ≠ "__proto__" ∧ k ∉ Js.own_keys (kit_json kit files))
            (Js.own_keys (defaults_json files))) as Hown.
  { rewrite loadHatDatabase_kit_json. unfold Js.assign. cbn [fold_left].
    rewrite !own_keys_assign_from by done. cbn [Js.own_keys map app].
    rewrite !keys_no_index by done. f_equal.
    - apply filter_ext_in. intros x _. split; [tauto|].
      intros ?. split; [done | apply not_elem_of_nil].
    - apply filter_ext_in. intros x _. split; intros [Hp Hx]; split; try done.
      + intros Hin. apply Hx, list_elem_of_filter. split; [|done].
        split; [done | apply not_elem_of_nil].
      + intros [_ Hin]%list_elem_of_filter. done. }
  rewrite keys_no_index; [done|].
  rewrite Hown. apply Forall_app. split.
  - apply Forall_forall. intros k [_ Hin]%list_elem_of_filter.
    by eapply Forall_forall in Hk.
  - apply Forall_forall. intros k [_ Hin]%list_elem_of_filter.
    by eapply Forall_forall in Hd.
Qed.

Lemma loadHatDatabase_key_order_witness :
  Js.keys (loadHatDatabase (Some "city_helmets") Sample.merge_files) =
  ["b"; "c"; "a"].
Proof.
  apply (loadHatDatabase_key_order (Some "city_helmets") Sample.merge_files).
  - apply (bool_decide_unpack _). vm_compute. exact I.
  - apply (bool_decide_unpack _). vm_compute. exact I.
  - apply (bool_decide_unpack _). vm_compute. exact I.
Defined.

(** ** [showHatMenu] on any state *)

Lemma install_handler_attachment n h a :
  attachment (actor (install_handler n h a)) = attachment (actor a).
Proof. unfold install_handler. by case_decide. Qed.

(** The loop from any state, over keys the database has: it never
    reaches the [TypeError], keeps the fields of the instance, and adds
    one unattached actor per key. *)
Lemma showHatMenu_loop_frame hatIds menu x w :
  Forall (λ k, is_Some (Js.get k (HatDatabase w))) hatIds →
  ∃ w',
    showHatMenu_loop hatIds menu x w = (Normal tt, w') ∧
    same_fields w w' ∧
    length (actors w') = length (actors w) + length hatIds ∧
    next_id w' = next_id w + length hatIds ∧
    (Forall (λ a, attachment (actor a) = None) (actors w) →
     Forall (λ a, attachment (actor a) = None) (actors w')).
Proof.
  revert x w. induction hatIds as [|hatId rest IH]; intros x w Hkeys.
  - exists w. cbn. rewrite !Nat.add_0_r. by repeat split.
  - apply Forall_cons in Hkeys as [[r Hr] Hrest].
    cbn [showHatMenu_loop]. unfold mbind, M_bind, gets, read_HatDatabase.
    rewrite Hr.
    unfold create_button.
    destruct (truthy_string (resourceId r));
      unfold create, setBehavior_onClick, modify, set_actors;
      cbn [id actors next_id fst snd];
      match goal with
      | |- context [showHatMenu_loop rest menu ?x' ?w1] =>
          destruct (IH x' w1) as (w' & Hrun & Hsame & Hlen & Hnext & Hatt);
            [exact Hrest|]
      end;
      exists w'; rewrite Hrun;
      cbn [actors next_id] in Hlen, Hnext, Hatt;
      rewrite length_map, length_app in Hlen; cbn [length] in *;
      (split_and!; [done | exact Hsame | lia | lia |]);
      intros Hall; apply Hatt, Forall_forall; intros a Ha;
      apply list_elem_of_fmap in Ha as (b & -> & Hb);
      rewrite install_handler_attachment;
      apply elem_of_app in Hb as [Hb|Hb%list_elem_of_singleton];
      [by eapply Forall_forall in Hall | by subst
      |by eapply Forall_forall in Hall | by subst].
Qed.

Lemma showHatMenu_frame (w : World) :
  ∃ w',
    showHatMenu w = (Normal tt, w') ∧
    same_fields w w' ∧
    length (actors w') = length (actors w) + 1 + length (HatDatabase w) ∧
    next_id w' = next_id w + 1 + length (HatDatabase w) ∧
    (Forall (λ a, attachment (actor a) = None) (actors w) →
     Forall (λ a, attachment (actor a) = None) (actors w')).
Proof.
  unfold showHatMenu, function_body, mbind, M_bind, gets, create.
  cbn [HatDatabase].
  match goal with
  | |- context [showHatMenu_loop ?ks ?m ?x ?w0] =>
      destruct (showHatMenu_loop_frame ks m x w0)
        as (w' & Hrun & Hsame & Hlen & Hnext & Hatt)
  end.
  { apply Forall_forall. intros k Hk. by apply elem_of_keys in Hk. }
  exists w'. rewrite Hrun.
  cbn [actors next_id] in Hlen, Hnext, Hatt.
  rewrite length_app, length_keys in Hlen. rewrite length_keys in Hnext.
  cbn [length] in Hlen.
  split_and!; [done | exact Hsame | lia | lia |].
  intros Hall. apply Hatt, Forall_app. split; [done|].
  by apply Forall_singleton.
Qed.

Lemma map_id_install n h (l : list Actor) :
  map id (map (install_handler n h) l) = map id l.
Proof.
  rewrite map_map. apply map_ext. intros a.
  unfold install_handler. by case_decide.
Qed.

Lemma map_attachment_install n h (l : list Actor) :
  map (λ a, attachment (actor a)) (map (install_handler n h) l) =
  map (λ a, attachment (actor a)) l.
Proof.
  rewrite map_map. apply map_ext. intros a. apply install_handler_attachment.
Qed.

(** The ids and the attachments of the scene after the loop. *)
Lemma showHatMenu_loop_scene hatIds menu x w :
  Forall (λ k, is_Some (Js.get k (HatDatabase w))) hatIds →
  map id (actors (showHatMenu_loop hatIds menu x w).2) =
    map id (actors w) ++ seq (next_id w) (length hatIds) ∧
  map (λ a, attachment (actor a)) (actors (showHatMenu_loop hatIds menu x w).2) =
    map (λ a, attachment (actor a)) (actors w) ++
    replicate (length hatIds) None ∧
  HatDatabase_proto (showHatMenu_loop hatIds menu x w).2 = HatDatabase_proto w.
Proof.
  revert x w. induction hatIds as [|hatId rest IH]; intros x w Hkeys.
  - cbn. by rewrite !app_nil_r.
  - apply Forall_cons in Hkeys as [[r Hr] Hrest].
    cbn [showHatMenu_loop]. unfold mbind, M_bind, gets, read_HatDatabase.
    rewrite Hr.
    unfold create_button.
    destruct (truthy_string (resourceId r));
      unfold create, setBehavior_onClick, modify, set_actors;
      cbn [id actors next_id fst snd];
      match goal with
      | |- context [showHatMenu_loop rest menu ?x' ?w1] =>
          destruct (IH x' w1 Hrest) as (Hid & Hatt & Hproto)
      end;
      rewrite Hid, Hatt, Hproto; cbn [actors next_id HatDatabase_proto];
      rewrite map_id_install, map_attachment_install, !map_app;
      cbn; by rewrite <- !app_assoc.
Qed.

Lemma showHatMenu_scene (w : World) :
  map id (actors (showHatMenu w).2) =
    map id (actors w) ++ seq (next_id w) (1 + length (HatDatabase w)) ∧
  map (λ a, attachment (actor a)) (actors (showHatMenu w).2) =
    map (λ a, attachment (actor a)) (actors w) ++
    replicate (1 + length (HatDatabase w)) None ∧
  HatDatabase_proto (showHatMenu w).2 = HatDatabase_proto w.
Proof.
  unfold showHatMenu, function_body, mbind, M_bind, gets, create.
  cbn [HatDatabase].
  match goal with
  | |- context [showHatMenu_loop ?ks ?m ?x ?w0] =>
      destruct (showHatMenu_loop_scene ks m x w0) as (Hid & Hatt & Hproto);
        [|destruct (showHatMenu_loop_frame ks m x w0) as (w' & Hrun & _)]
  end.
  1, 2: apply Forall_forall; intros k Hk; by apply elem_of_keys in Hk.
  rewrite Hrun in Hid, Hatt, Hproto |- *. cbn [snd] in *.
  rewrite Hid, Hatt, Hproto. cbn [actors next_id HatDatabase_proto].
  rewrite !map_app, length_keys. cbn. by rewrite <- !app_assoc.
Qed.

(** X3.  [showHatMenu] from any state ends normally: the record of
    every enumerated key is defined (the values of the catalog being
    descriptors, as line 41 declares), so line 108 never reads a field
    of [undefined].  It leaves the catalog, its prototype, the attachment
    map and the destroy log as they were.  The scene keeps its actors,
    with their ids and attachments as they were, and gets exactly one
    container and one button per catalog entry behind them, with the
    next free ids, none of them attached to a user. *)
Theorem showHatMenu_total (w : World) :
  ∃ w',
    showHatMenu w = (Normal tt, w') ∧
    same_fields w w' ∧
    HatDatabase_proto w' = HatDatabase_proto w ∧
    next_id w' = next_id w + 1 + length (HatDatabase w) ∧
    map id (actors w') =
      map id (actors w) ++ seq (next_id w) (1 + length (HatDatabase w)) ∧
    map (λ a, attachment (actor a)) (actors w') =
      map (λ a, attachment (actor a)) (actors w) ++
      replicate (1 + length (HatDatabase w)) None.
Proof.
  destruct (showHatMenu_frame w) as (w' & Hrun & Hsame & _ & Hnext & _).
  destruct (showHatMenu_scene w) as (Hid & Hatt & Hproto).
  rewrite Hrun in Hid, Hatt, Hproto. exists w'. by split_and!.
Qed.

(** ** What the handlers never do *)

(** A handler other than the session start either does nothing or
    clears its user. *)
Lemma handle_cases e u w :
  event_user e = Some u →
  handle e w = (Normal tt, w) ∨
  handle e w = (clear_outcome u w, clear_spec u w).
Proof.
  assert (∀ h, wearHat h u w = (Normal tt, w) ∨
               wearHat h u w = (clear_outcome u w, clear_spec u w)) as Hwear.
  { intros h. destruct (decide (h = "clear!")) as [->|Hne].
    - right. apply wearHat_clear_spec.
    - left. by apply wearHat_not_clear. }
  destruct e as [files|u'|b u'|h u']; intros [= ->]; cbn [handle].
  - right. apply userLeft_clear_spec.
  - unfold click, mbind, M_bind, gets.
    destruct (list_find _ _) as [[? a]|]; [|by left].
    destruct (onClick_released a); [apply Hwear | by left].
  - apply Hwear.
Qed.

Lemma handle_unworn e w :
  is_SessionStarted e = false → attachedHats w = ∅ → (handle e w).2 = w.
Proof.
  intros He Hw.
  assert (∃ u, event_user e = Some u) as [u Hu]
    by (destruct e; try done; by eexists).
  destruct (handle_cases e u w Hu) as [-> | ->]; [done|]. cbn [snd].
  apply clear_spec_unworn. by rewrite Hw.
Qed.

Lemma handle_never_worn e w : never_worn w → never_worn (handle e w).2.
Proof.
  intros (Hhats & Hdes & Hatt).
  destruct (is_SessionStarted e) eqn:He.
  - destruct e as [files| | |]; try done. cbn [handle].
    unfold onStarted, function_body, started, async_function_body.
    unfold mbind, M_bind, gets, modify. cbn [snd].
    destruct (showHatMenu_frame
                (set_HatDatabase_proto
                   (loadHatDatabase_proto (params_kit w) files)
                   (set_HatDatabase (loadHatDatabase (params_kit w) files) w)))
      as (w' & -> & (_ & _ & Hh & Hd) & _ & _ & Ha).
    cbn [snd]. split_and!; [by rewrite Hh | by rewrite Hd | by apply Ha].
  - by rewrite (handle_unworn e w He Hhats).
Qed.

Lemma run_never_worn es w : never_worn w → never_worn (run es w).
Proof.
  revert w. induction es as [|e es IH]; intros w Hw; [done|].
  change (run (e :: es) w) with (run es (handle e w).2).
  by apply IH, handle_never_worn.
Qed.

(** X7.  Whatever events the host delivers to a new instance, nobody is ever
    recorded as wearing a hat, no actor is ever destroyed and no live
    actor is attached to a user. *)
Theorem nobody_ever_wears_a_hat (kit : option string) (es : list Event) :
  attachedHats (run es (new_WearAHat kit)) = ∅ ∧
  destroyed (run es (new_WearAHat kit)) = [] ∧
  ∀ a u, a ∈ actors (run es (new_WearAHat kit)) → ¬ attached_to u a.
Proof.
  destruct (run_never_worn es (new_WearAHat kit)) as (Hh & Hd & Ha).
  { by split_and!; [| | apply Forall_nil]. }
  split_and!; [done | done |].
  intros a u Hin. eapply Forall_forall in Ha; [|exact Hin].
  unfold attached_to. by rewrite Ha.
Qed.

(** X8.  In a running instance every click, every selection (of any
    id) and every user departure leaves the whole state, scene
    included, exactly as it was: only a session start changes anything.
    When the user id of the event does not name a member of
    [Object.prototype], the handler also returns normally. *)
Theorem only_session_start_changes_state
    (kit : option string) (es : list Event) (e : Event) (u : string) :
  event_user e = Some u →
  (handle e (run es (new_WearAHat kit))).2 = run es (new_WearAHat kit) ∧
  (Js.inherited u = false →
   handle e (run es (new_WearAHat kit))
   = (Normal tt, run es (new_WearAHat kit))).
Proof.
  intros Hu.
  destruct (run_never_worn es (new_WearAHat kit)) as (Hh & _).
  { by split_and!; [| | apply Forall_nil]. }
  assert (clear_spec u (run es (new_WearAHat kit)) = run es (new_WearAHat kit))
    as Hclear by (apply clear_spec_unworn; by rewrite Hh).
  destruct (handle_cases e u (run es (new_WearAHat kit)) Hu) as [-> | ->];
    cbn [snd]; (split; [done|]); [done|].
  intros Hi. by rewrite clear_outcome_ordinary, Hclear.
Qed.

Lemma only_session_start_changes_state_witness :
  onClick_released <$> actors Sample.session !! 4 = Some (Some "clear!") ∧
  run [SessionStarted Sample.files] (new_WearAHat (Some "city_helmets"))
  = Sample.session ∧
  handle (Click 4 "u1") Sample.session = (Normal tt, Sample.session).
Proof.
  assert (run [SessionStarted Sample.files] (new_WearAHat (Some "city_helmets"))
          = Sample.session) as Hs by (vm_compute; reflexivity).
  split; [vm_compute; reflexivity|]. split; [exact Hs|].
  destruct (only_session_start_changes_state (Some "city_helmets")
              [SessionStarted Sample.files] (Click 4 "u1") "u1" eq_refl)
    as [_ H].
  rewrite Hs in H. apply H. vm_compute. reflexivity.
Defined.

(** X9.  A click, a selection or a departure throws to the host in one
    case only: the read of lines 89 and 180 for a user id that names a
    member of [Object.prototype] and has no record.  The exception is
    the TypeError of calling a missing [destroy], and the state is left
    as it was.  Every other call returns normally. *)
Theorem handle_throws_only_for_inherited_name
    (e : Event) (u : string) (w : World) :
  event_user e = Some u →
  (handle e w).1 = Normal tt ∨
  ((handle e w).1 = Thrown not_a_function ∧ (handle e w).2 = w ∧
   Js.inherited u = true ∧ attachedHats w !! u = None).
Proof.
  intros Hu. destruct (handle_cases e u w Hu) as [-> | ->]; [by left|].
  cbn [fst snd]. unfold clear_outcome, read_attachedHats.
  destruct (attachedHats w !! u) as [a|] eqn:Hrec; [by left|].
  destruct (Js.inherited u) eqn:Hi; [|by left].
  right. split_and!; try done. by apply clear_spec_unworn.
Qed.

Lemma handle_throws_only_for_inherited_name_witness :
  handle (UserLeft "constructor") Sample.session
    = (Thrown not_a_function, Sample.session) ∧
  ((handle (UserLeft "constructor") Sample.session).1 = Normal tt ∨
   ((handle (UserLeft "constructor") Sample.session).1 = Thrown not_a_function ∧
    (handle (UserLeft "constructor") Sample.session).2 = Sample.session ∧
    Js.inherited "constructor" = true ∧
    attachedHats Sample.session !! "constructor" = None)).
Proof.
  split; [vm_compute; reflexivity|].
  apply (handle_throws_only_for_inherited_name
           (UserLeft "constructor") "constructor" Sample.session).
  reflexivity.
Defined.

(** ** The menu of a new instance *)

Lemma showHatMenu_container w :
  actors w = [] → next_id w = 0 →
  ∃ w',
    showHatMenu w = (Normal tt, w') ∧
    same_fields w w' ∧
    HatDatabase_proto w' = HatDatabase_proto w ∧
    actors w' = menu_container :: menu_entries w' ∧
    are_buttons (HatDatabase w) 0 (Js.keys (HatDatabase w)) 0 1 (menu_entries w').
Proof.
  intros Hact Hnext.
  destruct (showHatMenu_scene w) as (_ & _ & Hproto). revert Hproto.
  unfold showHatMenu, function_body.
  unfold mbind, M_bind, gets, create at 1 2.
  rewrite Hact, Hnext. cbn [HatDatabase app]. fold menu_container.
  set (w0 := {| params_kit := params_kit w; HatDatabase := HatDatabase w;
                HatDatabase_proto := HatDatabase_proto w;
                attachedHats := attachedHats w;
                actors := [menu_container]; next_id := 1;
                destroyed := destroyed w |}).
  destruct (showHatMenu_loop_spec (Js.keys (HatDatabase w)) menu_container 0 w0)
    as (w' & new & Hrun & Hact' & _ & Hsame & Hnew).
  { apply Forall_forall. intros k Hk. by apply elem_of_keys in Hk. }
  { apply Forall_singleton. cbn. lia. }
  rewrite Hrun. cbn [snd]. intros Hproto. exists w'. cbn in Hact', Hnew.
  assert (menu_entries w' = new) as ->.
  { unfold menu_entries. rewrite Hact', filter_cons, decide_False.
    - apply filter_Forall_id. by eapply are_buttons_handlers.
    - cbn. by intros [? ?]. }
  by split_and!.
Qed.

Lemma menu_of_container db kit :
  ∃ w',
    menu_of db kit = (Normal tt, w') ∧
    HatDatabase w' = db ∧ attachedHats w' = ∅ ∧ destroyed w' = [] ∧
    params_kit w' = kit ∧
    actors w' = menu_container :: menu_entries w' ∧
    are_buttons db 0 (Js.keys db) 0 1 (menu_entries w').
Proof.
  unfold menu_of.
  destruct (showHatMenu_container (set_HatDatabase db (new_WearAHat kit)))
    as (w' & Hrun & (Hk & Hdb & Hh & Hd) & _ & Hact & Hnew); [done..|].
  exists w'. by split_and!.
Qed.

(** X4.  An entry without a resource ([resourceId] absent or the empty
    string) is shown as a box of side 0.3 with a collider, parented to
    the menu container, named after its id and placed at (x, 0, 0) with
    no rotation or scale of its own. *)
Theorem menu_box_entry
    (db : Js.Obj HatDescriptor) (kit : option string)
    (i : nat) (e : Actor) (hatId : string) (r : HatDescriptor) :
  menu_entries (menu_of db kit).2 !! i = Some e →
  onClick_released e = Some hatId →
  Js.get hatId db = Some r →
  truthy_string (resourceId r) = false →
  actors (menu_of db kit).2 !! 0 = Some menu_container ∧
  source e = CreatePrimitiveBox (vec (3#10) (3#10) (3#10)) true ∧
  parentId (actor e) = Some (id menu_container) ∧
  name (actor e) = Some hatId ∧
  attachment (actor e) = None ∧
  ∃ x, transform (actor e) =
         {| t_position := Some (vec x 0 0); t_rotation := None;
            t_scale := None |}.
Proof.
  intros Hi Hclick Hr Htruthy.
  destruct (menu_of_container db kit)
    as (w' & Hrun & _ & _ & _ & _ & Hact & Hnew).
  rewrite Hrun in Hi |- *. cbn [snd] in Hi |- *.
  destruct (are_buttons_lookup _ _ _ _ _ _ _ _ Hnew Hi)
    as (hatId' & x' & _ & _ & Hb).
  destruct Hb as [r' Hr' Ht | r' Hr' Ht]; cbn in Hclick;
    injection Hclick as ->; rewrite Hr in Hr'; injection Hr' as <-;
    [congruence|].
  rewrite Hact. cbn. split_and!; try done. by eexists.
Qed.

Lemma menu_box_entry_witness :
  menu_entries (menu_of Sample.catalog None).2 !! 2 = Some Sample.marker_button ∧
  parentId (actor Sample.marker_button) = Some (id menu_container).
Proof.
  split; [vm_compute; reflexivity|].
  apply (menu_box_entry Sample.catalog None 2 Sample.marker_button
           "marker" Sample.marker); vm_compute; reflexivity.
Defined.

(** X5.  Buttons never overlap: along the layout axis a later entry stands at
    least 1.5 to the right of any earlier one. *)
Theorem menu_entries_spacing
    (db : Js.Obj HatDescriptor) (kit : option string)
    (i j : nat) (ei ej : Actor) (pi pj : Vector3) :
  i < j →
  menu_entries (menu_of db kit).2 !! i = Some ei →
  menu_entries (menu_of db kit).2 !! j = Some ej →
  t_position (transform (actor ei)) = Some pi →
  t_position (transform (actor ej)) = Some pj →
  (x_ pi + (3#2) <= x_ pj)%Q.
Proof.
  intros Hlt Hi Hj Hpi Hpj.
  destruct (menu_of_container db kit)
    as (w' & Hrun & _ & _ & _ & _ & _ & Hnew).
  rewrite Hrun in Hi, Hj. cbn [snd] in Hi, Hj.
  destruct (are_buttons_lookup _ _ _ _ _ _ _ _ Hnew Hi)
    as (hi & xi & _ & Hxi & Hbi).
  destruct (are_buttons_lookup _ _ _ _ _ _ _ _ Hnew Hj)
    as (hj & xj & _ & Hxj & Hbj).
  assert (x_ pi == xi)%Q as ->.
  { destruct Hbi; cbn in Hpi; injection Hpi as <-; reflexivity. }
  assert (x_ pj == xj)%Q as ->.
  { destruct Hbj; cbn in Hpj; injection Hpj as <-; reflexivity. }
  rewrite Hxi, Hxj.
  assert (inject_Z (Z.of_nat i) + 1 <= inject_Z (Z.of_nat j))%Q as Hij.
  { change 1%Q with (inject_Z 1). rewrite <- inject_Z_plus, <- Zle_Qle. lia. }
  lra.
Qed.

Lemma menu_entries_spacing_witness :
  (x_ (vec 0 1 0) + (3#2) <= x_ (vec (12#4) 0 0))%Q.
Proof.
  apply (menu_entries_spacing Sample.catalog None 0 2
           Sample.pilot_button Sample.marker_button);
    [lia | vm_compute; reflexivity..].
Defined.

(** ** Session start *)



(** ** User departures *)

Lemma clear_spec_actors u w :
  actors (clear_spec u w) =
  match attachedHats w !! u with
  | Some a => filter (λ b, id b ≠ a) (actors w)
  | None => actors w
  end.
Proof. unfold clear_spec. by destruct (attachedHats w !! u). Qed.

Lemma clear_spec_destroyed u w :
  destroyed (clear_spec u w) =
  match attachedHats w !! u with
  | Some a => destroyed w ++ [a]
  | None => destroyed w
  end.
Proof. unfold clear_spec. by destruct (attachedHats w !! u). Qed.

Lemma filter_comm {A} (P Q : A → Prop)
    `{!∀ x, Decision (P x)} `{!∀ x, Decision (Q x)} (l : list A) :
  filter P (filter Q l) = filter Q (filter P l).
Proof.
  induction l as [|a l IH]; [done|]. rewrite !filter_cons.
  destruct (decide (Q a)), (decide (P a)); rewrite ?filter_cons;
    repeat case_decide; try done; by rewrite IH.
Qed.

(** X11.  The departure of one user leaves every other user's record alone,
    and the departures of two different users can be handled in either
    order: the attachment map and the scene end up the same, and the
    same actors have been destroyed. *)
Theorem userLeft_independent (u u' : string) (w : World) :
  u ≠ u' →
  attachedHats (userLeft u w).2 !! u' = attachedHats w !! u' ∧
  attachedHats (userLeft u' (userLeft u w).2).2 =
    attachedHats (userLeft u (userLeft u' w).2).2 ∧
  actors (userLeft u' (userLeft u w).2).2 =
    actors (userLeft u (userLeft u' w).2).2 ∧
  destroyed (userLeft u' (userLeft u w).2).2 ≡ₚ
    destroyed (userLeft u (userLeft u' w).2).2.
Proof.
  intros Hne. rewrite !userLeft_clear_spec. cbn [snd].
  assert (∀ a b v, a ≠ b →
            attachedHats (clear_spec a v) !! b = attachedHats v !! b) as Hother.
  { intros a b v Hab.
    destruct (clear_spec_frame a v) as (_ & _ & _ & ->).
    by apply lookup_delete_ne. }
  split_and!.
  - by apply Hother.
  - destruct (clear_spec_frame u' (clear_spec u w)) as (_ & _ & _ & ->).
    destruct (clear_spec_frame u (clear_spec u' w)) as (_ & _ & _ & ->).
    destruct (clear_spec_frame u w) as (_ & _ & _ & ->).
    destruct (clear_spec_frame u' w) as (_ & _ & _ & ->).
    apply delete_delete.
  - rewrite !clear_spec_actors, !Hother by done.
    destruct (attachedHats w !! u), (attachedHats w !! u'); try done.
    apply filter_comm.
  - rewrite !clear_spec_destroyed, !Hother by done.
    destruct (attachedHats w !! u) as [a|], (attachedHats w !! u') as [b|];
      try done.
    rewrite <- !app_assoc. apply Permutation_app_head. cbn. apply perm_swap.
Qed.

Lemma userLeft_independent_witness :
  attachedHats (userLeft "u2" Sample.wearing).2 !! "u1"
  = attachedHats Sample.wearing !! "u1".
Proof.
  apply (userLeft_independent "u2" "u1" Sample.wearing). discriminate.
Defined.

Lemma filter_id_ne_length (l : list Actor) a :
  NoDup (map id l) → a ∈ map id l →
  length (filter (λ b, id b ≠ a) l) + 1 = length l ∧
  (a ∉ map id (filter (λ b, id b ≠ a) l)).
Proof.
  intros Hnd Hin. split.
  - induction l as [|b l IH]; [by apply elem_of_nil in Hin|].
    cbn [map] in Hnd, Hin. apply NoDup_cons in Hnd as [Hb Hnd].
    rewrite filter_cons. destruct (decide (id b ≠ a)) as [Hne|Heq].
    + apply elem_of_cons in Hin as [?|Hin]; [congruence|].
      cbn [length]. rewrite <- (IH Hnd Hin). lia.
    + apply dec_stable in Heq. subst a. cbn [length].
      rewrite filter_Forall_id; [lia|].
      apply Forall_forall. intros c Hc Heq. apply Hb. rewrite <- Heq.
      apply list_elem_of_fmap. by exists c.
  - intros (b & Hb & [Hne _]%list_elem_of_filter)%list_elem_of_fmap. done.
Qed.

(** X10.  When a departing user has a recorded hat that is alive in a scene
    of distinct actors, [userLeft] destroys exactly that one actor:
    the scene loses one actor, the hat's id is gone from it and is
    appended to the destroy log, every other actor stays, and the user
    has no record any more. *)
Theorem userLeft_destroys_exactly_one (u : string) (a : ActorId) (w : World) :
  attachedHats w !! u = Some a →
  NoDup (map id (actors w)) →
  a ∈ map id (actors w) →
  (userLeft u w).1 = Normal tt ∧
  attachedHats (userLeft u w).2 !! u = None ∧
  length (actors (userLeft u w).2) + 1 = length (actors w) ∧
  (a ∉ map id (actors (userLeft u w).2)) ∧
  (∀ b, b ∈ actors w → id b ≠ a → b ∈ actors (userLeft u w).2) ∧
  destroyed (userLeft u w).2 = destroyed w ++ [a].
Proof.
  intros Hu Hnd Hin. rewrite userLeft_clear_spec. cbn [fst snd].
  rewrite (clear_outcome_worn u a w Hu).
  rewrite clear_spec_lookup, clear_spec_actors, clear_spec_destroyed, Hu.
  destruct (filter_id_ne_length (actors w) a Hnd Hin) as [Hlen Hgone].
  split_and!; try done.
  intros b Hb Hne. by apply list_elem_of_filter.
Qed.

Lemma userLeft_destroys_exactly_one_witness :
  length (actors (userLeft "u1" Sample.wearing).2) + 1
  = length (actors Sample.wearing).
Proof.
  apply (userLeft_destroys_exactly_one "u1" 5 Sample.wearing).
  - vm_compute. reflexivity.
  - apply (bool_decide_unpack _). vm_compute. exact I.
  - apply (bool_decide_unpack _). vm_compute. exact I.
Defined.

(** ** The statements after the [return] (lines 184-212) *)

Lemma filter_none {A} (P : A → Prop) `{!∀ x, Decision (P x)} (l : list A) :
  Forall (λ x, ¬ P x) l → filter P l = [].
Proof.
  induction 1 as [|a l Ha _ IH]; [done|].
  by rewrite filter_cons, decide_False.
Qed.

(** X12.  Run on their own on a known id, for a user id that does not
    name a member of [Object.prototype], in a state where the user's
    record accounts for the hats on the user's head, the statements of
    lines 184-212 replace: they end normally and leave exactly one
    actor attached to the user, the newly created one, on the head,
    made from the record's resource with the resolved transform, and
    recorded for the user.  ([wearHat] never reaches these
    statements.) *)
Theorem attach_statements_replace
    (hatId u : string) (w : World) (r : HatDescriptor) :
  Js.get hatId (HatDatabase w) = Some r →
  Js.inherited u = false →
  recorded u w →
  ∃ hat,
    (wearHat_after_return hatId u w).1 = Normal tt ∧
    attachments_of u (wearHat_after_return hatId u w).2 = [hat] ∧
    attachedHats (wearHat_after_return hatId u w).2 !! u = Some (id hat) ∧
    source hat = CreateFromLibrary (resourceId r) ∧
    attachment (actor hat) = Some {| attachPoint := "head"; userId := u |} ∧
    transform (actor hat) =
      {| t_position := Some (default (vec 0 0 0) (position r));
         t_rotation := Some (default (vec 0 180 0) (rotation r));
         t_scale := Some (default (vec (3#2) (3#2) (3#2)) (scale r)) |}.
Proof.
  intros Hr Hi Hrec.
  destruct (wearHat_after_return_attaches hatId u w r Hr)
    as (hat & -> & Hid & Hsrc & Htr & Hatt);
    [by apply clear_outcome_ordinary | by apply inherited_proto |].
  exists hat. cbn [fst snd attachedHats].
  destruct (attach_transform_cases r) as (Hp & Hs & Hro).
  rewrite Hp, Hs, Hro in Htr.
  split_and!; try done.
  - unfold attachments_of. cbn [actors].
    rewrite filter_app, filter_none.
    + rewrite filter_cons, decide_True; [done|].
      unfold attached_to. by rewrite Hatt.
    + apply Forall_forall. intros b Hb Hbu. rewrite clear_spec_actors in Hb.
      destruct (attachedHats w !! u) as [a|] eqn:Hu.
      * apply list_elem_of_filter in Hb as [Hne Hb].
        specialize (Hrec b Hb Hbu). congruence.
      * specialize (Hrec b Hb Hbu). congruence.
  - rewrite Hid. apply lookup_insert_eq.
Qed.

Lemma attach_statements_replace_witness :
  ∃ hat,
    attachments_of "u1" (wearHat_after_return "crown" "u1" Sample.wearing).2
      = [hat] ∧
    t_scale (transform (actor hat)) = Some (vec 2 2 2).
Proof.
  destruct (attach_statements_replace "crown" "u1" Sample.wearing Sample.crown)
    as (hat & _ & Hone & _ & _ & _ & Htr).
  - vm_compute. reflexivity.
  - vm_compute. reflexivity.
  - refine (proj1 (Forall_forall
             (λ b, attached_to "u1" b →
                   attachedHats Sample.wearing !! "u1" = Some (id b))
             (actors Sample.wearing)) _).
    apply (bool_decide_unpack _). vm_compute. exact I.
  - exists hat. split; [exact Hone|]. rewrite Htr. reflexivity.
Defined.

(** X13.  Run for an ordinary user on an id that the catalog does not
    have and that is no inherited name either (the catalog having the
    ordinary prototype), the same statements first destroy the user's
    hat and remove the record, and then throw on [hatRecord.position]:
    the hat is lost and nothing is attached. *)
Theorem attach_statements_unknown_id (hatId u : string) (w : World) :
  Js.get hatId (HatDatabase w) = None →
  HatDatabase_proto w = None →
  Js.inherited hatId = false →
  Js.inherited u = false →
  ∃ e, wearHat_after_return hatId u w = (Thrown e, clear_spec u w).
Proof.
  intros Hr Hproto Hh Hu. unfold wearHat_after_return.
  rewrite clear_then, clear_outcome_ordinary by done.
  unfold mbind, M_bind, gets, read_HatDatabase.
  destruct (clear_spec_frame u w) as (_ & -> & _ & _).
  rewrite clear_spec_proto, Hr, Hproto, Hh. by eexists.
Qed.

Lemma attach_statements_unknown_id_witness :
  ∃ e, wearHat_after_return "forged" "u1" Sample.wearing
       = (Thrown e, clear_spec "u1" Sample.wearing).
Proof.
  apply (attach_statements_unknown_id "forged" "u1" Sample.wearing);
    vm_compute; reflexivity.
Defined.
